(** * The watchOS companion middleware of jitsi-meet

    A shallow embedding of [react/features/mobile/watchos/middleware.js]:
    the three store listeners that publish the application context to the
    watch, the two callbacks registered with the watch connectivity library,
    and the helpers that derive the published snapshot from the redux state.

    JavaScript values are embedded as an inductive type with the language's
    truthiness, strict equality, [typeof] and string conversion written out.
    Effectful code runs in a small state-and-exception monad over a [World]
    holding the redux state, the listener registry's previous selections and
    the trace of observable effects (log lines, dispatched actions, contexts
    handed to the transport). *)

From Stdlib Require Import ZArith String Ascii List Bool Lia DecimalString.
Import ListNotations.

Open Scope string_scope.
Open Scope Z_scope.

(* ------------------------------------------------------------------ *)
(** ** JavaScript values and the primitives the middleware uses *)

Module JS.

(** The primitive values that can reach the middleware.  A number is either
    an integer (session ids and timestamps are integral and stay within the
    range where a JavaScript number prints as plain decimal digits) or NaN.
    A string is its sequence of code units; the middleware only compares
    strings, reads the last unit and lower-cases, for which a text and its
    UTF-8 encoding behave alike. *)
Inductive value : Type :=
| VUndefined
| VNull
| VBool (b : bool)
| VNum (n : Z)
| VNaN
| VStr (s : string).

(** [ToBoolean]: what [if (v)], [!v] and [v ? a : b] test. *)
Definition truthy (v : value) : bool :=
  match v with
  | VUndefined | VNull | VNaN => false
  | VBool b => b
  | VNum n => negb (n =? 0)
  | VStr s => negb (s =? "")%string
  end.

(** [a === b]: no coercion between types, and NaN differs from itself. *)
Definition strict_eq (a b : value) : bool :=
  match a, b with
  | VUndefined, VUndefined => true
  | VNull, VNull => true
  | VBool x, VBool y => Bool.eqb x y
  | VNum x, VNum y => x =? y
  | VStr x, VStr y => (x =? y)%string
  | _, _ => false
  end.

(** [a !== b]. *)
Definition strict_neq (a b : value) : bool := negb (strict_eq a b).

(** [typeof v], which is always a string. *)
Definition typeof (v : value) : string :=
  match v with
  | VUndefined => "undefined"
  | VNull => "object"
  | VBool _ => "boolean"
  | VNum _ | VNaN => "number"
  | VStr _ => "string"
  end.

(** [ToString], as applied to the holes of a template literal.  An
    integer is printed as its decimal digits, which is what JavaScript
    prints for the integers below 10^21 that session ids are. *)
Definition to_string (v : value) : string :=
  match v with
  | VUndefined => "undefined"
  | VNull => "null"
  | VBool true => "true"
  | VBool false => "false"
  | VNum n => NilZero.string_of_int (Z.to_int n)
  | VNaN => "NaN"
  | VStr s => s
  end.

(** [s.substr(start)] with the length omitted: a negative [start] counts
    from the end of the string, and both ends are clamped. *)
Definition substr (s : string) (start : Z) : string :=
  let len := Z.of_nat (String.length s) in
  let from := if start <? 0 then Z.max (len + start) 0 else Z.min start len in
  substring (Z.to_nat from) (Z.to_nat (len - from)) s.

(** [c.toLowerCase()] on one code unit.  Only the letters A to Z are
    mapped.  The middleware compares the result with the word "activated";
    outside ASCII only the Kelvin sign lower-cases to an ASCII letter, and
    that letter is k, so the comparison comes out the same. *)
Definition lower_ascii (c : ascii) : ascii :=
  let n := nat_of_ascii c in
  if (65 <=? n)%nat && (n <=? 90)%nat then ascii_of_nat (n + 32) else c.

Fixpoint toLowerCase (s : string) : string :=
  match s with
  | EmptyString => EmptyString
  | String c rest => String (lower_ascii c) (toLowerCase rest)
  end.

(** [arr.slice(start)] with the end omitted: a fresh array holding the
    elements from [start] on, a negative [start] counting from the end. *)
Definition slice {A : Type} (arr : list A) (start : Z) : list A :=
  let len := Z.of_nat (List.length arr) in
  let from := if start <? 0 then Z.max (len + start) 0 else Z.min start len in
  skipn (Z.to_nat from) arr.

(** [arr.reverse()], on an array no one else holds. *)
Definition reverse {A : Type} (arr : list A) : list A := rev arr.

End JS.

Import JS.

(* ------------------------------------------------------------------ *)
(** ** Data model *)

(** A message received from the watch.  A field the sender left out reads
    as [VUndefined]. *)
Module Message.
Record t : Type := {
  command : value;
  sessionID : value;
  data : value;
  muted : value
}.
End Message.

(** [state['features/mobile/watchos']]. *)
Module WatchOS.
Record t : Type := {
  conferenceTimestamp : value;
  sessionID : value
}.
End WatchOS.

(** The object literal handed to [watch.updateApplicationContext]. *)
Module Context.
Record t (Entry : Type) : Type := {
  conferenceTimestamp : value;
  conferenceURL : value;
  micMuted : bool;
  recentURLs : list Entry;
  sessionID : value
}.
Arguments conferenceTimestamp {Entry} _.
Arguments conferenceURL {Entry} _.
Arguments micMuted {Entry} _.
Arguments recentURLs {Entry} _.
Arguments sessionID {Entry} _.
End Context.

(** The actions the middleware dispatches, named after their creators. *)
Inductive Action : Type :=
| appNavigate (url : value)
| setAudioMuted (muted ensureTrack : bool)
| setSessionId
| setConferenceTimestamp (timestamp : value).

Section DataModel.

(** Entries of the recent list are opaque to the middleware. *)
Variable Entry : Type.

(** [state['features/recent-list']] is an array object.  Store listeners
    compare selections with [!==], which on arrays is object identity, so
    the array carries the identity [ref] next to its elements. *)
Record RecentList : Type := {
  ref : nat;
  entries : list Entry
}.

(** The redux state as the middleware reads it.  The connection slice is
    represented by what the two imported readers return on it:
    [inviteURLReady] is [isInviteURLReady(state)] and [inviteURLString] is
    [toURLString(getInviteURL(state))], a string or nothing. *)
Record State : Type := {
  recentList : RecentList;
  audioMuted : bool;
  inviteURLReady : bool;
  inviteURLString : option string;
  watchos : WatchOS.t
}.

(** What the middleware does to the outside, in order. *)
Inductive Effect : Type :=
| Warn (msg : string)
| Error (msg : string) (err : value)
| Dispatched (a : Action)
| UpdateApplicationContext (c : Context.t Entry).

(** Modelled from the spec: the store-listener registry of [base/redux]
    is not among the sources.  It keeps, per registered selector, the
    previously observed selection, and calls the listener only when the
    current selection differs from it.  Before anything was observed a
    selection is absent, which for the conference URL is [VUndefined]. *)
Record Selections : Type := {
  prevRecentList : option nat;
  prevAudioMuted : option bool;
  prevConferenceUrl : value
}.

Record World : Type := {
  store : State;
  selections : Selections;
  trace : list Effect
}.

End DataModel.

Arguments ref {Entry} _.
Arguments entries {Entry} _.
Arguments recentList {Entry} _.
Arguments audioMuted {Entry} _.
Arguments inviteURLReady {Entry} _.
Arguments inviteURLString {Entry} _.
Arguments watchos {Entry} _.
Arguments Warn {Entry} msg.
Arguments Error {Entry} msg err.
Arguments Dispatched {Entry} a.
Arguments UpdateApplicationContext {Entry} c.
Arguments store {Entry} _.
Arguments selections {Entry} _.
Arguments trace {Entry} _.

Inductive completion (A : Type) : Type :=
| Normal (a : A)
| Throw (e : value).
Arguments Normal {A} a.
Arguments Throw {A} e.

(* ------------------------------------------------------------------ *)
(** ** Sample data for the examples *)

Module Sample.

(** A recent list of five entries, oldest first. *)
Definition recent : RecentList string :=
  {| ref := 0%nat; entries := ["a"; "b"; "c"; "d"; "e"] |}.

(** A state in which the invite URL is [url] (when [ready]) and the
    session id is the number [sid]. *)
Definition state (ready : bool) (url : option string) (sid : value)
  : State string :=
  {| recentList := recent; audioMuted := false;
     inviteURLReady := ready; inviteURLString := url;
     watchos :=
       {| WatchOS.conferenceTimestamp := VUndefined;
          WatchOS.sessionID := sid |} |}.

(** Not in a conference, session 1. *)
Definition idle : State string := state false None (VNum 1).

(** In the conference [https://x/room], session 1. *)
Definition in_room : State string :=
  state true (Some "https://x/room") (VNum 1).

(** A world whose registry has observed the state [s] and whose trace is
    empty. *)
Definition world (s : State string) (url : value) : World string :=
  {| store := s;
     selections :=
       {| prevRecentList := Some (ref (recentList s));
          prevAudioMuted := Some (audioMuted s);
          prevConferenceUrl := url |};
     trace := [] |}.

Definition message (command sessionID data muted : value) : Message.t :=
  {| Message.command := command; Message.sessionID := sessionID;
     Message.data := data; Message.muted := muted |}.

(** A transport that always accepts the context, and one that never does. *)
Definition sends (c : Context.t string) : option value := None.
Definition fails (c : Context.t string) : option value :=
  Some (VStr "not reachable").

(** A host whose navigation and mute actions leave the store alone. *)
Definition inert (a : Action) (s : State string) : State string := s.

(** Values for the constants of the absent [./constants]. *)
Definition HANG_UP : string := "hangup".
Definition JOIN_CONFERENCE : string := "joinConference".
Definition SET_MUTED : string := "setMuted".
Definition MAX : Z := 3.

(** Values for the action types of the absent [base/app] and
    [base/conference]. *)
Definition APP_WILL_MOUNT : string := "APP_WILL_MOUNT".
Definition CONFERENCE_JOINED : string := "CONFERENCE_JOINED".

(** Session ids drawn from a counter. *)
Definition counter (v : value) : value :=
  match v with
  | VNum n => VNum (n + 1)
  | _ => VNum 1
  end.

End Sample.

Section Middleware.

Variable Entry : Type.

Abbreviation State := (State Entry).
Abbreviation World := (World Entry).
Abbreviation Effect := (Effect Entry).
Abbreviation RecentList := (RecentList Entry).

(* ------------------------------------------------------------------ *)
(** ** The monad the handlers run in *)

Definition M (A : Type) : Type := World -> completion A * World.

Definition ret {A : Type} (a : A) : M A := fun w => (Normal a, w).

Definition bind {A B : Type} (m : M A) (k : A -> M B) : M B :=
  fun w =>
    match m w with
    | (Normal a, w') => k a w'
    | (Throw e, w') => (Throw e, w')
    end.

Definition throw {A : Type} (e : value) : M A := fun w => (Throw e, w).

(** [try { body } catch (error) { handler }]. *)
Definition try_catch {A : Type} (body : M A) (handler : value -> M A) : M A :=
  fun w =>
    match body w with
    | (Throw e, w') => handler e w'
    | r => r
    end.

Notation "x <- m ;; k" := (bind m (fun x => k))
  (at level 100, m at next level, right associativity).
Notation "m ;; k" := (bind m (fun _ => k))
  (at level 100, right associativity).

Definition getState : M State := fun w => (Normal (store w), w).

Definition add_effect (e : Effect) (w : World) : World :=
  {| store := store w; selections := selections w;
     trace := (trace w ++ [e])%list |}.

Definition emit (e : Effect) : M unit :=
  fun w => (Normal tt, add_effect e w).

Definition logger_warn (msg : string) : M unit := emit (Warn msg).
Definition logger_error (msg : string) (err : value) : M unit :=
  emit (Error msg err).

(** The transport: [Some e] when [watch.updateApplicationContext] throws
    [e] on this context (it could not be encoded or sent), [None] when the
    call returns. *)
Variable transport : Context.t Entry -> option value.

Definition watch_updateApplicationContext (c : Context.t Entry) : M unit :=
  emit (UpdateApplicationContext c) ;;
  match transport c with
  | Some e => throw e
  | None => ret tt
  end.

(** How the host reacts to the navigation and mute actions; these reducers
    and thunks belong to other features. *)
Variable host : Action -> State -> State.

(** The scheme by which a new session id is chosen from the current one. *)
Variable nextSessionID : value -> value.

(** Modelled from the spec: the reducer and the action creators of the
    feature ([reducer.js], [actions.js]) are not among the sources.
    [setSessionId] assigns a new session id and [setConferenceTimestamp]
    stamps the activation time; neither touches another slice. *)
Definition reduce (a : Action) (s : State) : State :=
  match a with
  | setSessionId =>
      {| recentList := recentList s; audioMuted := audioMuted s;
         inviteURLReady := inviteURLReady s;
         inviteURLString := inviteURLString s;
         watchos :=
           {| WatchOS.conferenceTimestamp :=
                WatchOS.conferenceTimestamp (watchos s);
              WatchOS.sessionID :=
                nextSessionID (WatchOS.sessionID (watchos s)) |} |}
  | setConferenceTimestamp t =>
      {| recentList := recentList s; audioMuted := audioMuted s;
         inviteURLReady := inviteURLReady s;
         inviteURLString := inviteURLString s;
         watchos :=
           {| WatchOS.conferenceTimestamp := t;
              WatchOS.sessionID := WatchOS.sessionID (watchos s) |} |}
  | _ => host a s
  end.

(** [dispatch(action)]: the store reduces the action; the trace records
    that it was dispatched.  The notification round the store runs after a
    dispatch is the separate operation [stateChanged] below, so the trace
    of a callback holds the callback's own calls and not what the store's
    subscribers do in reaction to the action. *)
Definition dispatch (a : Action) : M unit :=
  fun w =>
    (Normal tt,
     add_effect (Dispatched a)
       {| store := reduce a (store w); selections := selections w;
          trace := trace w |}).

(* ------------------------------------------------------------------ *)
(** ** The middleware *)

(** The constants of [./constants], which is not among the sources. *)
Variables CMD_HANG_UP CMD_JOIN_CONFERENCE CMD_SET_MUTED : string.
Variable MAX_RECENT_URLS : Z.

(** The current conference URL, or [undefined] when there is none. *)
Definition _getCurrentConferenceUrl (state : State) : value :=
  let currentUrl : option string :=
    if inviteURLReady state then inviteURLString state else None in
  (* Check if the URL doesn't end with a slash *)
  let currentUrl : option string :=
    match currentUrl with
    | Some u =>
        if truthy (VStr u) && (substr u (-1) =? "/")%string
        then None
        else Some u
    | None => None
    end in
  match currentUrl with
  | Some u => if truthy (VStr u) then VStr u else VUndefined
  | None => VUndefined
  end.

Definition _getSessionId (state : State) : value :=
  WatchOS.sessionID (watchos state).

(** Trim to [MAX_RECENT_URLS] and reverse the list. *)
Definition _getRecentUrls (state : State) : list Entry :=
  let recentURLs := entries (recentList state) in
  let reversedList := slice recentURLs (- MAX_RECENT_URLS) in
  reverse reversedList.

Definition _isAudioMuted (state : State) : bool := audioMuted state.

(** The context [_updateApplicationContext] builds from a state. *)
Definition context_of (state : State) : Context.t Entry :=
  {| Context.conferenceTimestamp := WatchOS.conferenceTimestamp (watchos state);
     Context.conferenceURL := _getCurrentConferenceUrl state;
     Context.micMuted := _isAudioMuted state;
     Context.recentURLs := _getRecentUrls state;
     Context.sessionID := WatchOS.sessionID (watchos state) |}.

Definition _updateApplicationContext : M unit :=
  state <- getState ;;
  try_catch
    (watch_updateApplicationContext (context_of state))
    (fun error =>
       logger_error "Failed to stringify or send the context" error).

(** The callback [_appWillMount] passes to [watch.subscribeToWatchState]. *)
Definition watchStateCallback (error : value) (watchState : string) : M unit :=
  if truthy error then logger_error "Error getting watchState" error
  else if (toLowerCase watchState =? "activated")%string
       then _updateApplicationContext
       else ret tt.

(** The text of the warning logged for a command that is not accepted. *)
Definition outdated_warning (message : Message.t) (currentSessionID : value)
  : string :=
  "Ignoring outdated watch command: " ++ to_string (Message.command message)
  ++ " sessionID: " ++ to_string (Message.sessionID message)
  ++ " current session ID: " ++ to_string currentSessionID.

(** The callback [_appWillMount] passes to [watch.subscribeToMessages]. *)
Definition messageCallback (error : value) (message : Message.t) : M unit :=
  if truthy error then logger_error "watch.subscribeToMessages error:" error
  else
    let command := Message.command message in
    let sessionID := Message.sessionID message in
    state <- getState ;;
    let currentSessionID := _getSessionId state in
    if negb (truthy sessionID) || strict_neq sessionID currentSessionID then
      logger_warn (outdated_warning message currentSessionID)
    else if strict_eq command (VStr CMD_HANG_UP) then
      state <- getState ;;
      if strict_neq (VStr (typeof (_getCurrentConferenceUrl state))) VUndefined
      then dispatch (appNavigate VUndefined)
      else ret tt
    else if strict_eq command (VStr CMD_JOIN_CONFERENCE) then
      let newConferenceURL := Message.data message in
      state <- getState ;;
      let oldConferenceURL := _getCurrentConferenceUrl state in
      if strict_neq oldConferenceURL newConferenceURL
      then dispatch (appNavigate newConferenceURL)
      else ret tt
    else if strict_eq command (VStr CMD_SET_MUTED) then
      dispatch
        (setAudioMuted
           (strict_eq (Message.muted message) (VStr "true"))
           (* ensureTrack *) true)
    else ret tt.

(** The three listeners registered at load time. *)
Definition recentListListener : M unit := _updateApplicationContext.

Definition audioMutedListener : M unit := _updateApplicationContext.

Definition conferenceUrlListener : M unit :=
  dispatch setSessionId ;;
  _updateApplicationContext.

(** The action types of [base/app] and [base/conference], and the two
    subscription functions of the watch connectivity library; none of them
    is among the sources. *)
Variables APP_WILL_MOUNT CONFERENCE_JOINED : string.
Variable watch_subscribeToWatchState : (value -> string -> M unit) -> M unit.
Variable watch_subscribeToMessages : (value -> Message.t -> M unit) -> M unit.

(** Registers listeners to the react-native-watch-connectivity lib. *)
Definition _appWillMount : M unit :=
  watch_subscribeToWatchState watchStateCallback ;;
  watch_subscribeToMessages messageCallback.

(** Middleware that captures conference actions.  [actionType] is
    [action.type], [now] is what [new Date().getTime()] returns and [next]
    is the rest of the chain applied to the action. *)
Definition middleware {R : Type} (now : Z) (next : M R) (actionType : value)
  : M R :=
  (if strict_eq actionType (VStr APP_WILL_MOUNT) then
     _appWillMount
   else if strict_eq actionType (VStr CONFERENCE_JOINED) then
     dispatch (setConferenceTimestamp (VNum now)) ;;
     _updateApplicationContext
   else ret tt) ;;
  next.

(* ------------------------------------------------------------------ *)
(** ** The store around the middleware *)

Definition getSelections : M Selections :=
  fun w => (Normal (selections w), w).

Definition remember (f : Selections -> Selections) : M unit :=
  fun w =>
    (Normal tt,
     {| store := store w; selections := f (selections w);
        trace := trace w |}).

(** Modelled from the spec: one registered (selector, listener) pair of
    the absent registry.  The selector is applied to the current state and
    the listener runs only if the selection differs from the one observed
    before, which is replaced first. *)
Definition notify {S : Type} (select : State -> S) (prev : Selections -> S)
  (differs : S -> S -> bool) (set : S -> Selections -> Selections)
  (listener : M unit) : M unit :=
  state <- getState ;;
  sel <- getSelections ;;
  let selection := select state in
  if differs (prev sel) selection
  then remember (set selection) ;; listener
  else ret tt.

Definition differs_ref (a b : option nat) : bool :=
  match a, b with
  | Some x, Some y => negb (x =? y)%nat
  | None, None => false
  | _, _ => true
  end.

Definition differs_bool (a b : option bool) : bool :=
  match a, b with
  | Some x, Some y => negb (Bool.eqb x y)
  | None, None => false
  | _, _ => true
  end.

(** Modelled from the spec: one notification round of the absent registry
    over the three pairs this file registers, in registration order. *)
Definition stateChanged : M unit :=
  notify (fun state => Some (ref (recentList state))) prevRecentList
    differs_ref
    (fun v sel =>
       {| prevRecentList := v; prevAudioMuted := prevAudioMuted sel;
          prevConferenceUrl := prevConferenceUrl sel |})
    recentListListener ;;
  notify (fun state => Some (_isAudioMuted state)) prevAudioMuted
    differs_bool
    (fun v sel =>
       {| prevRecentList := prevRecentList sel; prevAudioMuted := v;
          prevConferenceUrl := prevConferenceUrl sel |})
    audioMutedListener ;;
  notify _getCurrentConferenceUrl prevConferenceUrl
    strict_neq
    (fun v sel =>
       {| prevRecentList := prevRecentList sel;
          prevAudioMuted := prevAudioMuted sel; prevConferenceUrl := v |})
    conferenceUrlListener.

(** The changes the host makes to the slices the middleware watches; the
    last one is a store update that leaves all of them as they were. *)
Inductive HostChange : Type :=
| RecentListEdited (r : RecentList)
| MuteToggled (muted : bool)
| InviteURLChanged (ready : bool) (url : option string)
| Renotified.

Definition apply_change (c : HostChange) (s : State) : State :=
  match c with
  | RecentListEdited r =>
      {| recentList := r; audioMuted := audioMuted s;
         inviteURLReady := inviteURLReady s;
         inviteURLString := inviteURLString s; watchos := watchos s |}
  | MuteToggled b =>
      {| recentList := recentList s; audioMuted := b;
         inviteURLReady := inviteURLReady s;
         inviteURLString := inviteURLString s; watchos := watchos s |}
  | InviteURLChanged ready url =>
      {| recentList := recentList s; audioMuted := audioMuted s;
         inviteURLReady := ready; inviteURLString := url;
         watchos := watchos s |}
  | Renotified => s
  end.

(** The host commits one change and the store notifies the registry. *)
Definition hostStep (c : HostChange) : M unit :=
  (fun w =>
     (Normal tt,
      {| store := apply_change c (store w); selections := selections w;
         trace := trace w |})) ;;
  stateChanged.

Fixpoint hostSteps (cs : list HostChange) : M unit :=
  match cs with
  | [] => ret tt
  | c :: rest => hostStep c ;; hostSteps rest
  end.

(** Reading a trace. *)
Definition is_rotation (e : Effect) : bool :=
  match e with
  | Dispatched setSessionId => true
  | _ => false
  end.

Definition rotations (t : list Effect) : nat :=
  List.length (filter is_rotation t).

Definition dispatched (t : list Effect) : list Action :=
  flat_map (fun e => match e with Dispatched a => [a] | _ => [] end) t.

Definition published (t : list Effect) : list (Context.t Entry) :=
  flat_map
    (fun e => match e with UpdateApplicationContext c => [c] | _ => [] end) t.

Definition warnings (t : list Effect) : list string :=
  flat_map (fun e => match e with Warn m => [m] | _ => [] end) t.


(* ------------------------------------------------------------------ *)
(** ** Notions the properties are stated with *)

(** [sub] occurs in [s]. *)
Definition contains (sub s : string) : Prop :=
  exists pre post, s = pre ++ sub ++ post.

(** The last code unit of a string, if it has one. *)
Fixpoint last_char (s : string) : option ascii :=
  match s with
  | EmptyString => None
  | String c EmptyString => Some c
  | String _ rest => last_char rest
  end.

(** The newest [k] entries of a chronological list, still oldest first:
    older entries are dropped for as long as more than [k] remain. *)
Fixpoint last_entries {A : Type} (k : nat) (l : list A) : list A :=
  match l with
  | [] => []
  | _ :: rest =>
      if (List.length l <=? k)%nat then l else last_entries k rest
  end.

(** The world after one publish: the context built from the store was
    handed to the transport, and if the transport threw, the failure was
    logged. *)
Definition after_publish (w : World) : World :=
  let c := context_of (store w) in
  {| store := store w; selections := selections w;
     trace :=
       (trace w ++
        UpdateApplicationContext c ::
        match transport c with
        | Some e => [Error "Failed to stringify or send the context" e]
        | None => []
        end)%list |}.

(** What a conference URL handed to the watch looks like: nothing, or a
    string that is not empty and does not end with a slash. *)
Definition well_formed_url (v : value) : Prop :=
  v = VUndefined \/
  exists u, v = VStr u /\ u <> "" /\ last_char u <> Some "/"%char.

(** A message passes the session check. *)
Definition accepted (m : Message.t) (w : World) : Prop :=
  truthy (Message.sessionID m) = true /\
  strict_eq (Message.sessionID m) (_getSessionId (store w)) = true.

(** The registry has observed the current conference URL. *)
Definition synced (w : World) : Prop :=
  prevConferenceUrl (selections w) = _getCurrentConferenceUrl (store w).

(** The registry has observed all three selections of the current state,
    so that a notification round has nothing to report. *)
Definition settled (w : World) : Prop :=
  differs_ref (prevRecentList (selections w))
    (Some (ref (recentList (store w)))) = false /\
  differs_bool (prevAudioMuted (selections w))
    (Some (_isAudioMuted (store w))) = false /\
  strict_neq (prevConferenceUrl (selections w))
    (_getCurrentConferenceUrl (store w)) = false.

(** The conference URLs the registry sees over a sequence of host changes. *)
Fixpoint urls_after (cs : list HostChange) (s : State) : list value :=
  match cs with
  | [] => []
  | c :: rest =>
      _getCurrentConferenceUrl (apply_change c s)
      :: urls_after rest (apply_change c s)
  end.

(** The changes that are not a change of the invite URL: an edit of the
    recent list, a mute toggle, a redundant update. *)
Definition keeps_url (c : HostChange) : bool :=
  match c with
  | InviteURLChanged _ _ => false
  | _ => true
  end.

(** The number of adjacent pairs that differ in [prev :: urls]. *)
Fixpoint distinct_changes (prev : value) (urls : list value) : nat :=
  match urls with
  | [] => 0%nat
  | u :: rest =>
      ((if strict_eq prev u then 0 else 1) + distinct_changes u rest)%nat
  end.


(* ------------------------------------------------------------------ *)
(** ** Facts about the JavaScript primitives *)

Lemma strict_eq_true_eq (a b : value) : strict_eq a b = true -> a = b.
Proof.
  destruct a, b; simpl; try discriminate; try reflexivity.
  - intros H. apply Bool.eqb_prop in H. now subst.
  - intros H. apply Z.eqb_eq in H. now subst.
  - intros H. apply String.eqb_eq in H. now subst.
Qed.

Lemma strict_eq_sym (a b : value) : strict_eq a b = strict_eq b a.
Proof.
  destruct a, b; simpl; try reflexivity.
  - now destruct b, b0.
  - apply Z.eqb_sym.
  - apply String.eqb_sym.
Qed.

Lemma strict_eq_typeof (a b : value) :
  typeof a <> typeof b -> strict_eq a b = false.
Proof.
  destruct a, b; simpl; intros H; try reflexivity; now elim H.
Qed.

Lemma strict_eq_str_refl (s : string) : strict_eq (VStr s) (VStr s) = true.
Proof. simpl. apply String.eqb_refl. Qed.

Lemma strict_eq_str_neq (s t : string) :
  s <> t -> strict_eq (VStr s) (VStr t) = false.
Proof. intros H. simpl. now apply String.eqb_neq. Qed.

Lemma typeof_never_undefined (v : value) :
  strict_neq (VStr (typeof v)) VUndefined = true.
Proof. reflexivity. Qed.

Lemma contains_intro (pre sub post : string) :
  contains sub (pre ++ sub ++ post).
Proof. now exists pre, post. Qed.

Lemma string_app_assoc (a b c : string) : (a ++ b) ++ c = a ++ b ++ c.
Proof.
  induction a as [|x a IH]; simpl; [reflexivity | now rewrite IH].
Qed.

Lemma string_app_nil_r (a : string) : a ++ "" = a.
Proof.
  induction a as [|x a IH]; simpl; [reflexivity | now rewrite IH].
Qed.

(* ------------------------------------------------------------------ *)
(** ** The command dispatcher *)

Lemma outdated_warning_contains (m : Message.t) (cur : value) :
  contains (to_string (Message.command m)) (outdated_warning m cur) /\
  contains (to_string (Message.sessionID m)) (outdated_warning m cur) /\
  contains (to_string cur) (outdated_warning m cur).
Proof.
  unfold outdated_warning. repeat split.
  - apply contains_intro.
  - set (a := "Ignoring outdated watch command: ").
    set (b := to_string (Message.command m)).
    exists (a ++ b ++ " sessionID: "),
      (" current session ID: " ++ to_string cur).
    now rewrite !string_app_assoc.
  - set (a := "Ignoring outdated watch command: ").
    set (b := to_string (Message.command m)).
    set (c := to_string (Message.sessionID m)).
    exists (a ++ b ++ " sessionID: " ++ c ++ " current session ID: "), "".
    now rewrite !string_app_assoc, string_app_nil_r.
Qed.

(** A message that fails the session check only produces the warning. *)
Lemma rejected_message (error : value) (m : Message.t) (w : World) :
  truthy error = false ->
  negb (truthy (Message.sessionID m))
  || strict_neq (Message.sessionID m) (_getSessionId (store w)) = true ->
  messageCallback error m w =
  (Normal tt, add_effect (Warn (outdated_warning m (_getSessionId (store w)))) w).
Proof.
  intros Herr Hstale. unfold messageCallback. rewrite Herr.
  unfold bind at 1. unfold getState at 1. cbv beta iota.
  rewrite Hstale. reflexivity.
Qed.

(** A message that passes the session check reaches the [switch]. *)
Lemma accepted_guard (m : Message.t) (w : World) :
  accepted m w ->
  negb (truthy (Message.sessionID m))
  || strict_neq (Message.sessionID m) (_getSessionId (store w)) = false.
Proof.
  intros [Ht He]. unfold strict_neq. now rewrite Ht, He.
Qed.

Lemma dispatched_add_warn (msg : string) (w : World) :
  dispatched (trace (add_effect (Warn msg) w)) = dispatched (trace w).
Proof.
  unfold dispatched, add_effect. simpl.
  rewrite flat_map_app. simpl. now rewrite app_nil_r.
Qed.

Lemma dispatched_dispatch (a : Action) (w : World) :
  dispatched (trace (snd (dispatch a w))) = (dispatched (trace w) ++ [a])%list.
Proof.
  unfold dispatched, dispatch, add_effect. simpl.
  now rewrite flat_map_app.
Qed.

(** An accepted hang-up command navigates whatever the current URL is:
    the guard compares a [typeof] string with [undefined]. *)
Lemma hang_up_always_navigates (error : value) (m : Message.t) (w : World) :
  truthy error = false ->
  accepted m w ->
  Message.command m = VStr CMD_HANG_UP ->
  messageCallback error m w = dispatch (appNavigate VUndefined) w.
Proof.
  intros Herr Hacc Hcmd. unfold messageCallback. rewrite Herr.
  unfold bind at 1. unfold getState at 1. cbv beta iota.
  rewrite (accepted_guard _ _ Hacc), Hcmd, strict_eq_str_refl.
  unfold bind, getState. now rewrite typeof_never_undefined.
Qed.

(** An accepted join command navigates exactly when the requested URL is
    not the current one. *)
Lemma join_dispatch (error : value) (m : Message.t) (w : World) :
  truthy error = false ->
  accepted m w ->
  Message.command m = VStr CMD_JOIN_CONFERENCE ->
  CMD_JOIN_CONFERENCE <> CMD_HANG_UP ->
  messageCallback error m w =
  if strict_eq (Message.data m) (_getCurrentConferenceUrl (store w))
  then (Normal tt, w)
  else dispatch (appNavigate (Message.data m)) w.
Proof.
  intros Herr Hacc Hcmd Hne. unfold messageCallback. rewrite Herr.
  unfold bind at 1. unfold getState at 1. cbv beta iota.
  rewrite (accepted_guard _ _ Hacc), Hcmd.
  rewrite (strict_eq_str_neq _ _ Hne), strict_eq_str_refl.
  unfold bind, getState, strict_neq.
  rewrite (strict_eq_sym (_getCurrentConferenceUrl (store w))).
  now destruct (strict_eq (Message.data m) (_getCurrentConferenceUrl (store w))).
Qed.

(** C2 - Staleness rejection.  Whatever the command, a message whose
    sessionID is absent (or otherwise falsy) or not strictly equal to the
    current session id dispatches nothing and leaves the store alone; the
    only effect is one warning, whose text contains the command name, the
    message's sessionID and the current session id.  Submitting the same
    message again gives the same outcome again. *)
Theorem staleness_rejection (error : value) (m : Message.t) (w : World) :
  truthy error = false ->
  truthy (Message.sessionID m) = false \/
  strict_eq (Message.sessionID m) (_getSessionId (store w)) = false ->
  let warning := outdated_warning m (_getSessionId (store w)) in
  messageCallback error m w = (Normal tt, add_effect (Warn warning) w) /\
  store (snd (messageCallback error m w)) = store w /\
  dispatched (trace (snd (messageCallback error m w))) = dispatched (trace w) /\
  warnings (trace (snd (messageCallback error m w))) =
    (warnings (trace w) ++ [warning])%list /\
  contains (to_string (Message.command m)) warning /\
  contains (to_string (Message.sessionID m)) warning /\
  contains (to_string (_getSessionId (store w))) warning /\
  (messageCallback error m ;; messageCallback error m) w =
    (Normal tt, add_effect (Warn warning) (add_effect (Warn warning) w)).
Proof.
  intros Herr Hstale warning.
  assert (Hguard :
    negb (truthy (Message.sessionID m))
    || strict_neq (Message.sessionID m) (_getSessionId (store w)) = true).
  { unfold strict_neq. destruct Hstale as [H | H]; rewrite H; simpl;
      [reflexivity | apply orb_true_r]. }
  pose proof (rejected_message error m w Herr Hguard) as Hrun.
  fold warning in Hrun.
  destruct (outdated_warning_contains m (_getSessionId (store w)))
    as (Hc & Hs & Hcur).
  repeat split; try assumption.
  - now rewrite Hrun.
  - rewrite Hrun. apply dispatched_add_warn.
  - rewrite Hrun. unfold warnings, add_effect. simpl.
    now rewrite flat_map_app.
  - unfold bind. rewrite Hrun.
    apply (rejected_message error m (add_effect (Warn warning) w) Herr Hguard).
Qed.

(** C10 - The session check is a truthiness test followed by a strict
    comparison.  A message whose sessionID is falsy is dropped whatever the
    current session id is, so also when the two are strictly equal; and a
    sessionID of another runtime type than the current one is dropped, no
    coercion being attempted. *)
Theorem session_check_truthy_and_strict
  (error : value) (m : Message.t) (w : World) :
  truthy error = false ->
  truthy (Message.sessionID m) = false \/
  typeof (Message.sessionID m) <> typeof (_getSessionId (store w)) ->
  messageCallback error m w =
    (Normal tt,
     add_effect (Warn (outdated_warning m (_getSessionId (store w)))) w) /\
  dispatched (trace (snd (messageCallback error m w))) = dispatched (trace w).
Proof.
  intros Herr Hbad.
  assert (Hrun :
    messageCallback error m w =
    (Normal tt,
     add_effect (Warn (outdated_warning m (_getSessionId (store w)))) w)).
  { apply rejected_message; [assumption |].
    destruct Hbad as [H | H].
    - now rewrite H.
    - unfold strict_neq. rewrite (strict_eq_typeof _ _ H).
      apply orb_true_r. }
  split; [assumption |].
  rewrite Hrun. apply dispatched_add_warn.
Qed.

(** C6 - Idempotent join.  An accepted join command whose url strictly
    equals the current conference URL does nothing at all, so sending it
    twice navigates zero times; when the url differs, the one effect is
    the dispatch of a navigation to that url. *)
Theorem idempotent_join (error : value) (m : Message.t) (w : World) :
  truthy error = false ->
  accepted m w ->
  Message.command m = VStr CMD_JOIN_CONFERENCE ->
  CMD_JOIN_CONFERENCE <> CMD_HANG_UP ->
  (strict_eq (Message.data m) (_getCurrentConferenceUrl (store w)) = true ->
   messageCallback error m w = (Normal tt, w) /\
   (messageCallback error m ;; messageCallback error m) w = (Normal tt, w)) /\
  (strict_eq (Message.data m) (_getCurrentConferenceUrl (store w)) = false ->
   messageCallback error m w = dispatch (appNavigate (Message.data m)) w /\
   dispatched (trace (snd (messageCallback error m w))) =
     (dispatched (trace w) ++ [appNavigate (Message.data m)])%list).
Proof.
  intros Herr Hacc Hcmd Hne.
  pose proof (join_dispatch error m w Herr Hacc Hcmd Hne) as Hrun.
  split; intros Heq; rewrite Heq in Hrun.
  - split; [assumption |]. unfold bind. now rewrite Hrun.
  - split; [assumption |]. rewrite Hrun. apply dispatched_dispatch.
Qed.

(** C7 - Mute command dispatch.  An accepted mute command dispatches
    [setAudioMuted] with the result of comparing the [muted] payload to the
    string "true" and with [ensureTrack] set; for the payload "true" this
    is [setAudioMuted(true, true)]. *)
Theorem mute_command_dispatch (error : value) (m : Message.t) (w : World) :
  truthy error = false ->
  accepted m w ->
  Message.command m = VStr CMD_SET_MUTED ->
  CMD_SET_MUTED <> CMD_HANG_UP ->
  CMD_SET_MUTED <> CMD_JOIN_CONFERENCE ->
  messageCallback error m w =
    dispatch (setAudioMuted (strict_eq (Message.muted m) (VStr "true")) true) w /\
  dispatched (trace (snd (messageCallback error m w))) =
    (dispatched (trace w)
     ++ [setAudioMuted (strict_eq (Message.muted m) (VStr "true")) true])%list /\
  (Message.muted m = VStr "true" ->
   dispatched (trace (snd (messageCallback error m w))) =
     (dispatched (trace w) ++ [setAudioMuted true true])%list).
Proof.
  intros Herr Hacc Hcmd Hne1 Hne2.
  assert (Hrun :
    messageCallback error m w =
    dispatch (setAudioMuted (strict_eq (Message.muted m) (VStr "true")) true) w).
  { unfold messageCallback. rewrite Herr.
    unfold bind at 1. unfold getState at 1. cbv beta iota.
    rewrite (accepted_guard _ _ Hacc), Hcmd.
    now rewrite (strict_eq_str_neq _ _ Hne1), (strict_eq_str_neq _ _ Hne2),
      strict_eq_str_refl. }
  split; [assumption |]. split.
  - rewrite Hrun. apply dispatched_dispatch.
  - intros Hm. rewrite Hrun, dispatched_dispatch, Hm. reflexivity.
Qed.

(* ------------------------------------------------------------------ *)
(** ** The snapshot publisher *)

Lemma update_spec (w : World) :
  _updateApplicationContext w = (Normal tt, after_publish w).
Proof.
  unfold _updateApplicationContext, watch_updateApplicationContext,
    try_catch, bind, getState, logger_error, emit, after_publish, throw, ret.
  simpl.
  destruct (transport (context_of (store w))) as [e |];
    unfold add_effect; simpl; [rewrite <- app_assoc |]; reflexivity.
Qed.

Lemma published_after_publish (w : World) :
  published (trace (after_publish w)) =
  (published (trace w) ++ [context_of (store w)])%list.
Proof.
  unfold published, after_publish. simpl. rewrite flat_map_app. simpl.
  destruct (transport (context_of (store w))); simpl; reflexivity.
Qed.

Lemma rotations_app (t u : list Effect) :
  rotations (t ++ u) = (rotations t + rotations u)%nat.
Proof. unfold rotations. now rewrite filter_app, length_app. Qed.

Lemma rotations_after_publish (w : World) :
  rotations (trace (after_publish w)) = rotations (trace w).
Proof.
  unfold after_publish. simpl. rewrite rotations_app.
  destruct (transport (context_of (store w))); unfold rotations; simpl; lia.
Qed.

Lemma notify_spec {S : Type} (select : State -> S) (prev : Selections -> S)
  (differs : S -> S -> bool) (set : S -> Selections -> Selections)
  (listener : M unit) (w : World) :
  notify select prev differs set listener w =
  if differs (prev (selections w)) (select (store w))
  then listener (snd (remember (set (select (store w))) w))
  else (Normal tt, w).
Proof.
  unfold notify, bind, getState, getSelections. cbv beta iota.
  now destruct (differs (prev (selections w)) (select (store w))).
Qed.

(** A pair whose listener only publishes leaves the store, the observed
    conference URL and the number of rotations as they were. *)
Lemma publish_round {S : Type} (select : State -> S) (prev : Selections -> S)
  (differs : S -> S -> bool) (set : S -> Selections -> Selections)
  (w : World) :
  (forall v sel, prevConferenceUrl (set v sel) = prevConferenceUrl sel) ->
  exists w1,
    notify select prev differs set _updateApplicationContext w = (Normal tt, w1) /\
    store w1 = store w /\
    prevConferenceUrl (selections w1) = prevConferenceUrl (selections w) /\
    rotations (trace w1) = rotations (trace w).
Proof.
  intros Hset. rewrite notify_spec.
  destruct (differs (prev (selections w)) (select (store w))).
  - rewrite update_spec. eexists. split; [reflexivity |].
    rewrite rotations_after_publish. simpl. now rewrite Hset.
  - exists w. now repeat split.
Qed.

Lemma conferenceUrlListener_spec (w : World) :
  conferenceUrlListener w =
  (Normal tt, after_publish (snd (dispatch setSessionId w))).
Proof.
  unfold conferenceUrlListener, bind. simpl. apply update_spec.
Qed.

(** One notification round: it returns normally, rotates the session
    exactly when the conference URL differs from the observed one, and
    leaves the registry holding the current URL. *)
Lemma stateChanged_facts (w : World) :
  let url := _getCurrentConferenceUrl (store w) in
  let same := strict_eq (prevConferenceUrl (selections w)) url in
  exists w',
    stateChanged w = (Normal tt, w') /\
    store w' = (if same then store w else reduce setSessionId (store w)) /\
    prevConferenceUrl (selections w') = url /\
    rotations (trace w') =
      (rotations (trace w) + if same then 0 else 1)%nat.
Proof.
  intros url same.
  unfold stateChanged, recentListListener, audioMutedListener.
  destruct (publish_round (fun state => Some (ref (recentList state)))
              prevRecentList differs_ref
              (fun v sel =>
                 {| prevRecentList := v; prevAudioMuted := prevAudioMuted sel;
                    prevConferenceUrl := prevConferenceUrl sel |}) w)
    as (w1 & Hrun1 & Hs1 & Hp1 & Hr1); [reflexivity |].
  destruct (publish_round (fun state => Some (_isAudioMuted state))
              prevAudioMuted differs_bool
              (fun v sel =>
                 {| prevRecentList := prevRecentList sel; prevAudioMuted := v;
                    prevConferenceUrl := prevConferenceUrl sel |}) w1)
    as (w2 & Hrun2 & Hs2 & Hp2 & Hr2); [reflexivity |].
  unfold bind at 1. rewrite Hrun1. unfold bind at 1. rewrite Hrun2.
  rewrite notify_spec. unfold strict_neq.
  rewrite Hp2, Hp1, Hs2, Hs1. fold url. fold same.
  destruct same eqn:Hsame; simpl.
  - exists w2. repeat split; try congruence.
    + rewrite Hp2, Hp1. now apply strict_eq_true_eq.
    + lia.
  - rewrite conferenceUrlListener_spec. eexists. split; [reflexivity |].
    rewrite rotations_after_publish. simpl.
    rewrite rotations_app. simpl. rewrite Hs2, Hs1, Hr2, Hr1.
    now repeat split.
Qed.

(** C9 - Publish failure semantics.  Whatever the transport does with the
    context, [_updateApplicationContext] returns normally with the store
    and the registry untouched; when the transport throws, the error is
    logged after the attempt and goes no further, neither out of the
    function nor out of the notification round and the activation callback
    that call it. *)
Theorem publish_failure_contained (w : World) :
  _updateApplicationContext w = (Normal tt, after_publish w) /\
  store (after_publish w) = store w /\
  selections (after_publish w) = selections w /\
  (forall e,
     transport (context_of (store w)) = Some e ->
     trace (after_publish w) =
       (trace w ++
        [UpdateApplicationContext (context_of (store w));
         Error "Failed to stringify or send the context" e])%list) /\
  fst (stateChanged w) = Normal tt /\
  (forall error watchState,
     fst (watchStateCallback error watchState w) = Normal tt).
Proof.
  split; [apply update_spec |]. repeat split.
  - intros e He. unfold after_publish. simpl. now rewrite He.
  - destruct (stateChanged_facts w) as (w' & Hrun & _). now rewrite Hrun.
  - intros error watchState. unfold watchStateCallback.
    destruct (truthy error); [reflexivity |].
    destruct (toLowerCase watchState =? "activated")%string;
      [now rewrite update_spec | reflexivity].
Qed.

(** C8 - Reconnect recovery.  When the activation callback is called
    without an error and with a state that lower-cases to "activated", it
    makes exactly one publish of the context built from the current store,
    whatever the registry has observed so far. *)
Theorem reconnect_recovery (error : value) (watchState : string) (w : World) :
  truthy error = false ->
  toLowerCase watchState = "activated" ->
  watchStateCallback error watchState w = _updateApplicationContext w /\
  fst (watchStateCallback error watchState w) = Normal tt /\
  published (trace (snd (watchStateCallback error watchState w))) =
    (published (trace w) ++ [context_of (store w)])%list.
Proof.
  intros Herr Hstate.
  assert (Hrun :
    watchStateCallback error watchState w = _updateApplicationContext w).
  { unfold watchStateCallback. rewrite Herr, Hstate. reflexivity. }
  rewrite Hrun, update_spec. simpl.
  repeat split. apply published_after_publish.
Qed.

(* ------------------------------------------------------------------ *)
(** ** The recent-list projection *)

Lemma last_entries_skipn {A : Type} (k : nat) (l : list A) :
  last_entries k l = skipn (List.length l - k) l.
Proof.
  induction l as [| x rest IH]; [reflexivity |].
  cbn [last_entries].
  destruct (List.length (x :: rest) <=? k)%nat eqn:Hle.
  - apply Nat.leb_le in Hle.
    replace (List.length (x :: rest) - k)%nat with 0%nat by lia.
    reflexivity.
  - apply Nat.leb_gt in Hle. cbn [List.length] in *.
    replace (S (List.length rest) - k)%nat
      with (S (List.length rest - k)) by lia.
    cbn [skipn]. exact IH.
Qed.

Lemma last_entries_suffix {A : Type} (k : nat) (l : list A) :
  exists older,
    l = (older ++ last_entries k l)%list /\
    List.length (last_entries k l) = Nat.min k (List.length l).
Proof.
  rewrite last_entries_skipn.
  exists (firstn (List.length l - k) l). split.
  - symmetry. apply firstn_skipn.
  - rewrite length_skipn. lia.
Qed.

Lemma slice_last_entries {A : Type} (l : list A) (k : Z) :
  0 < k -> slice l (- k) = last_entries (Z.to_nat k) l.
Proof.
  intros Hk. unfold slice. rewrite last_entries_skipn.
  replace (- k <? 0) with true by (symmetry; apply Z.ltb_lt; lia).
  f_equal. lia.
Qed.

(** What [_getRecentUrls] returns for a positive [MAX_RECENT_URLS]. *)
Lemma getRecentUrls_newest (state : State) :
  0 < MAX_RECENT_URLS ->
  _getRecentUrls state =
    rev (last_entries (Z.to_nat MAX_RECENT_URLS) (entries (recentList state))) /\
  List.length (_getRecentUrls state) =
    Nat.min (Z.to_nat MAX_RECENT_URLS)
      (List.length (entries (recentList state))) /\
  exists older,
    entries (recentList state) = (older ++ rev (_getRecentUrls state))%list.
Proof.
  intros Hmax. unfold _getRecentUrls, reverse.
  rewrite (slice_last_entries _ _ Hmax).
  destruct (last_entries_suffix (Z.to_nat MAX_RECENT_URLS)
              (entries (recentList state))) as (older & Hsplit & Hlen).
  split; [reflexivity |]. split.
  - now rewrite length_rev.
  - exists older. now rewrite rev_involutive.
Qed.

(** C4 - Recent-list projection.  For a positive [MAX_RECENT_URLS], a
    publish hands exactly one context to the transport, and the
    [recentURLs] of that context is the newest [MAX_RECENT_URLS] entries of
    the store's recent list (all of them when there are fewer), most recent
    first: the reversal of a suffix of the store's list. *)
Theorem recent_list_projection (w : World) :
  0 < MAX_RECENT_URLS ->
  exists c,
    published (trace (snd (_updateApplicationContext w))) =
      (published (trace w) ++ [c])%list /\
    Context.recentURLs c =
      rev (last_entries (Z.to_nat MAX_RECENT_URLS)
             (entries (recentList (store w)))) /\
    List.length (Context.recentURLs c) =
      Nat.min (Z.to_nat MAX_RECENT_URLS)
        (List.length (entries (recentList (store w)))) /\
    exists older,
      entries (recentList (store w)) =
        (older ++ rev (Context.recentURLs c))%list.
Proof.
  intros Hmax. exists (context_of (store w)). split.
  - rewrite update_spec. apply published_after_publish.
  - exact (getRecentUrls_newest (store w) Hmax).
Qed.

(* ------------------------------------------------------------------ *)
(** ** The current conference URL *)

Lemma substring_last (c : ascii) (rest : string) :
  substring (String.length rest) 1 (String c rest) =
  match last_char (String c rest) with
  | Some d => String d ""
  | None => ""
  end.
Proof.
  revert c. induction rest as [| d r IH]; intros c.
  - reflexivity.
  - transitivity (substring (String.length r) 1 (String d r));
      [reflexivity | now rewrite IH].
Qed.

Lemma substr_last (u : string) :
  substr u (-1) =
  match last_char u with
  | Some d => String d ""
  | None => ""
  end.
Proof.
  destruct u as [| c rest]; [reflexivity |].
  rewrite <- substring_last. unfold substr.
  replace (-1 <? 0) with true by reflexivity.
  cbn [String.length]. f_equal; lia.
Qed.

Lemma ends_with_slash (u : string) :
  (substr u (-1) =? "/")%string = true <-> last_char u = Some "/"%char.
Proof.
  rewrite substr_last, String.eqb_eq.
  destruct (last_char u) as [d |]; split; intros H; try discriminate.
  - now inversion H.
  - now inversion H.
Qed.

Lemma truthy_str (u : string) : truthy (VStr u) = true <-> u <> "".
Proof.
  simpl. rewrite negb_true_iff. apply String.eqb_neq.
Qed.

(** C5 (amended) - URL canonicalization.  The current conference URL is
    [undefined] when the invite URL is not ready, when the derived URL
    string is missing or empty, and when it ends with a slash; in every
    other case it is the derived string, unchanged. *)
Theorem url_canonicalization (state : State) :
  (inviteURLReady state = false ->
   _getCurrentConferenceUrl state = VUndefined) /\
  (inviteURLString state = None ->
   _getCurrentConferenceUrl state = VUndefined) /\
  (inviteURLString state = Some "" ->
   _getCurrentConferenceUrl state = VUndefined) /\
  (forall u,
     inviteURLString state = Some u ->
     last_char u = Some "/"%char ->
     _getCurrentConferenceUrl state = VUndefined) /\
  (forall u,
     inviteURLReady state = true ->
     inviteURLString state = Some u ->
     u <> "" ->
     last_char u <> Some "/"%char ->
     _getCurrentConferenceUrl state = VStr u).
Proof.
  unfold _getCurrentConferenceUrl. repeat split.
  - intros H. now rewrite H.
  - intros H. rewrite H. now destruct (inviteURLReady state).
  - intros H. rewrite H. now destruct (inviteURLReady state).
  - intros u Hu Hlast. rewrite Hu.
    destruct (inviteURLReady state); [| reflexivity].
    apply ends_with_slash in Hlast. rewrite Hlast.
    destruct (truthy (VStr u)) eqn:Ht; simpl; [reflexivity |].
    simpl in Ht. now rewrite Ht.
  - intros u Hready Hu Hne Hlast. rewrite Hready, Hu.
    apply truthy_str in Hne. rewrite Hne.
    destruct (substr u (-1) =? "/")%string eqn:Hs.
    + apply ends_with_slash in Hs. contradiction.
    + simpl. simpl in Hne. now rewrite Hne.
Qed.

(* ------------------------------------------------------------------ *)
(** ** The session manager *)

Lemma url_strict_refl (s : State) :
  strict_eq (_getCurrentConferenceUrl s) (_getCurrentConferenceUrl s) = true.
Proof.
  unfold _getCurrentConferenceUrl.
  destruct (if inviteURLReady s then inviteURLString s else None) as [u |];
    [| reflexivity].
  destruct (truthy (VStr u) && (substr u (-1) =? "/")%string);
    [reflexivity |].
  destruct (truthy (VStr u)); [apply strict_eq_str_refl | reflexivity].
Qed.

Lemma url_ignores_session (s : State) :
  _getCurrentConferenceUrl (reduce setSessionId s) = _getCurrentConferenceUrl s.
Proof. reflexivity. Qed.

Lemma apply_change_session (c : HostChange) (s : State) :
  apply_change c (reduce setSessionId s) = reduce setSessionId (apply_change c s).
Proof. destruct c; reflexivity. Qed.

Lemma apply_change_watchos (c : HostChange) (s : State) :
  watchos (apply_change c s) = watchos s.
Proof. destruct c; reflexivity. Qed.

Lemma urls_after_session (cs : list HostChange) (s : State) :
  urls_after cs (reduce setSessionId s) = urls_after cs s.
Proof.
  revert s. induction cs as [| c rest IH]; intros s; [reflexivity |].
  cbn [urls_after]. rewrite apply_change_session, url_ignores_session.
  now rewrite IH.
Qed.

Lemma keeps_url_sound (c : HostChange) (s : State) :
  keeps_url c = true ->
  _getCurrentConferenceUrl (apply_change c s) = _getCurrentConferenceUrl s.
Proof. destruct c; simpl; intros H; try discriminate; reflexivity. Qed.

Lemma hostStep_facts (c : HostChange) (w : World) :
  let s1 := apply_change c (store w) in
  let same :=
    strict_eq (prevConferenceUrl (selections w)) (_getCurrentConferenceUrl s1) in
  exists w',
    hostStep c w = (Normal tt, w') /\
    store w' = (if same then s1 else reduce setSessionId s1) /\
    prevConferenceUrl (selections w') = _getCurrentConferenceUrl s1 /\
    rotations (trace w') = (rotations (trace w) + if same then 0 else 1)%nat.
Proof.
  intros s1 same.
  destruct (stateChanged_facts
              {| store := s1; selections := selections w; trace := trace w |})
    as (w' & Hrun & Hstore & Hprev & Hrot).
  exists w'. repeat split; assumption.
Qed.

Lemma hostSteps_facts (cs : list HostChange) (w : World) :
  let n :=
    distinct_changes (prevConferenceUrl (selections w))
      (urls_after cs (store w)) in
  exists w',
    hostSteps cs w = (Normal tt, w') /\
    rotations (trace w') = (rotations (trace w) + n)%nat /\
    _getSessionId (store w') = Nat.iter n nextSessionID (_getSessionId (store w)).
Proof.
  revert w. induction cs as [| c rest IH]; intros w; cbn zeta.
  - exists w. simpl. repeat split. lia.
  - destruct (hostStep_facts c w) as (w1 & Hrun1 & Hstore1 & Hprev1 & Hrot1).
    destruct (IH w1) as (w' & Hrun & Hrot & Hsid). cbn zeta in *.
    exists w'. cbn [hostSteps urls_after distinct_changes].
    unfold bind at 1. rewrite Hrun1. split; [exact Hrun |].
    rewrite Hprev1 in Hrot, Hsid.
    assert (Hurls :
      urls_after rest (store w1) = urls_after rest (apply_change c (store w))).
    { rewrite Hstore1.
      destruct (strict_eq _ _); [reflexivity | apply urls_after_session]. }
    rewrite Hurls in Hrot, Hsid. split.
    + rewrite Hrot, Hrot1.
      destruct (strict_eq _ _); lia.
    + rewrite Hsid, Hstore1. unfold _getSessionId.
      destruct (strict_eq _ _); simpl.
      * now rewrite apply_change_watchos.
      * rewrite apply_change_watchos. now rewrite Nat.iter_swap.
Qed.

(** The store also notifies its subscribers after the [setSessionId] that
    the conference URL listener dispatches.  That round is not run inside
    [dispatch]; the next three lemmas show it would find nothing to do: a
    settled world stays settled under [setSessionId], a round on a settled
    world changes nothing, and every round ends in a settled world. *)
Lemma settled_after_rotation (w : World) :
  settled w -> settled (snd (dispatch setSessionId w)).
Proof. intros H. exact H. Qed.

Lemma settled_round_idle (w : World) :
  settled w -> stateChanged w = (Normal tt, w).
Proof.
  intros (Hr & Hm & Hu). unfold stateChanged.
  unfold bind at 1. rewrite notify_spec, Hr.
  unfold bind at 1. rewrite notify_spec, Hm.
  now rewrite notify_spec, Hu.
Qed.

Lemma differs_ref_same (r : nat) : differs_ref (Some r) (Some r) = false.
Proof. simpl. now rewrite Nat.eqb_refl. Qed.

Lemma differs_bool_same (b : bool) : differs_bool (Some b) (Some b) = false.
Proof. now destruct b. Qed.

Lemma url_observed (s : State) :
  strict_neq (_getCurrentConferenceUrl s) (_getCurrentConferenceUrl s) = false.
Proof. unfold strict_neq. now rewrite url_strict_refl. Qed.

Lemma stateChanged_settles (w : World) :
  settled (snd (stateChanged w)).
Proof.
  unfold stateChanged, recentListListener, audioMutedListener.
  unfold bind at 1. rewrite notify_spec.
  destruct (differs_ref _ _) eqn:Hr; [rewrite update_spec |];
    (unfold bind at 1; rewrite notify_spec;
     destruct (differs_bool _ _) eqn:Hm; [rewrite update_spec |];
     (rewrite notify_spec;
      destruct (strict_neq _ _) eqn:Hu;
        [rewrite conferenceUrlListener_spec |];
      simpl in *; unfold settled; simpl;
      repeat split;
      first [ apply differs_ref_same | apply differs_bool_same
            | exact (url_observed (store w)) | assumption ])).
Qed.

(** C3 - Session rotation invariant.  With a scheme that never hands out
    the current id again: over any sequence of host changes the number of
    [setSessionId] dispatches is the number of adjacent differing pairs in
    the sequence of conference URLs the registry sees, and the session id
    has been advanced that many times; one change rotates the session once
    when the URL differs from the observed one and not at all otherwise,
    so never for an edit of the recent list, a mute toggle or a redundant
    notification. *)
Theorem session_rotation_invariant :
  (forall v, strict_eq (nextSessionID v) v = false) ->
  (forall (cs : list HostChange) (w : World),
     let n :=
       distinct_changes (prevConferenceUrl (selections w))
         (urls_after cs (store w)) in
     fst (hostSteps cs w) = Normal tt /\
     rotations (trace (snd (hostSteps cs w))) = (rotations (trace w) + n)%nat /\
     _getSessionId (store (snd (hostSteps cs w))) =
       Nat.iter n nextSessionID (_getSessionId (store w))) /\
  (forall (c : HostChange) (w : World),
     synced w ->
     let url := _getCurrentConferenceUrl (store w) in
     let url' := _getCurrentConferenceUrl (apply_change c (store w)) in
     let w' := snd (hostStep c w) in
     synced w' /\
     (strict_eq url url' = true ->
      rotations (trace w') = rotations (trace w) /\
      _getSessionId (store w') = _getSessionId (store w)) /\
     (strict_eq url url' = false ->
      rotations (trace w') = S (rotations (trace w)) /\
      _getSessionId (store w') = nextSessionID (_getSessionId (store w)) /\
      strict_eq (_getSessionId (store w')) (_getSessionId (store w)) = false) /\
     (keeps_url c = true ->
      rotations (trace w') = rotations (trace w) /\
      _getSessionId (store w') = _getSessionId (store w))).
Proof.
  intros Hfresh. split.
  - intros cs w n.
    destruct (hostSteps_facts cs w) as (w' & Hrun & Hrot & Hsid).
    rewrite Hrun. simpl. now repeat split.
  - intros c w Hsync url url' w'.
    destruct (hostStep_facts c w) as (w1 & Hrun & Hstore & Hprev & Hrot).
    cbn zeta in *. subst w'. rewrite Hrun. cbn [snd].
    rewrite Hsync in Hstore, Hrot. fold url url' in Hstore, Hrot.
    assert (Hsame :
      strict_eq url url' = true ->
      rotations (trace w1) = rotations (trace w) /\
      _getSessionId (store w1) = _getSessionId (store w)).
    { intros He. rewrite He in Hstore, Hrot. split; [lia |].
      rewrite Hstore. unfold _getSessionId.
      now rewrite apply_change_watchos. }
    repeat split.
    + unfold synced. rewrite Hprev, Hstore.
      destruct (strict_eq url url'); [reflexivity |].
      now rewrite url_ignores_session.
    + now apply Hsame.
    + now apply Hsame.
    + rewrite Hrot, H. lia.
    + rewrite Hstore, H. unfold _getSessionId. simpl.
      now rewrite apply_change_watchos.
    + rewrite Hstore, H. unfold _getSessionId. simpl.
      rewrite apply_change_watchos. apply Hfresh.
    + apply Hsame. unfold url, url'.
      rewrite (keeps_url_sound c (store w) H). apply url_strict_refl.
    + apply Hsame. unfold url, url'.
      rewrite (keeps_url_sound c (store w) H). apply url_strict_refl.
Qed.

(* ------------------------------------------------------------------ *)
(** ** Further properties of the command dispatcher *)

Lemma strict_eq_neq (a b : value) : a <> b -> strict_eq a b = false.
Proof.
  intros Hne. destruct (strict_eq a b) eqn:He; [| reflexivity].
  elim Hne. now apply strict_eq_true_eq.
Qed.

Lemma truthy_strict_refl (v : value) :
  truthy v = true -> strict_eq v v = true.
Proof.
  destruct v; simpl; try discriminate; intros H.
  - now destruct b.
  - apply Z.eqb_refl.
  - apply String.eqb_refl.
Qed.

Lemma current_url_well_formed (s : State) :
  well_formed_url (_getCurrentConferenceUrl s).
Proof.
  unfold _getCurrentConferenceUrl, well_formed_url.
  destruct (if inviteURLReady s then inviteURLString s else None) as [u |];
    [| now left].
  destruct (truthy (VStr u)) eqn:Ht; cbn [andb].
  - destruct (substr u (-1) =? "/")%string eqn:Hs; [now left |].
    rewrite Ht. right. exists u. repeat split.
    + now apply truthy_str.
    + intros Hlast. apply ends_with_slash in Hlast. congruence.
  - rewrite Ht. now left.
Qed.

(** X1 - When the library reports an error to the message callback, the
    error is logged and nothing else happens, whatever the message is. *)
Theorem message_error_only_logged
  (error : value) (m : Message.t) (w : World) :
  truthy error = true ->
  messageCallback error m w =
    (Normal tt,
     add_effect (Error "watch.subscribeToMessages error:" error) w) /\
  dispatched (trace (snd (messageCallback error m w))) = dispatched (trace w) /\
  warnings (trace (snd (messageCallback error m w))) = warnings (trace w) /\
  store (snd (messageCallback error m w)) = store w.
Proof.
  intros Herr.
  assert (Hrun :
    messageCallback error m w =
    (Normal tt,
     add_effect (Error "watch.subscribeToMessages error:" error) w)).
  { unfold messageCallback. now rewrite Herr. }
  rewrite Hrun. split; [reflexivity |].
  unfold dispatched, warnings, add_effect. simpl.
  rewrite !flat_map_app. simpl. now rewrite !app_nil_r.
Qed.


(** X3 - A command of a kind the switch does not know is ignored: with a
    valid session id and a command that is none of the three constants,
    the callback leaves the world as it was. *)
Theorem unknown_command_ignored (error : value) (m : Message.t) (w : World) :
  truthy error = false ->
  accepted m w ->
  Message.command m <> VStr CMD_HANG_UP ->
  Message.command m <> VStr CMD_JOIN_CONFERENCE ->
  Message.command m <> VStr CMD_SET_MUTED ->
  messageCallback error m w = (Normal tt, w).
Proof.
  intros Herr Hacc H1 H2 H3. unfold messageCallback. rewrite Herr.
  unfold bind at 1. unfold getState at 1. cbv beta iota.
  rewrite (accepted_guard _ _ Hacc).
  now rewrite (strict_eq_neq _ _ H1), (strict_eq_neq _ _ H2),
    (strict_eq_neq _ _ H3).
Qed.

(** X4 - While the store holds no usable session id (undefined, 0, NaN,
    the empty string, ...), every message is rejected with the warning,
    whatever session id it carries. *)
Theorem no_command_without_session
  (error : value) (m : Message.t) (w : World) :
  truthy error = false ->
  truthy (_getSessionId (store w)) = false ->
  messageCallback error m w =
    (Normal tt,
     add_effect (Warn (outdated_warning m (_getSessionId (store w)))) w).
Proof.
  intros Herr Hcur. apply rejected_message; [assumption |].
  destruct (truthy (Message.sessionID m)) eqn:Ht; [| reflexivity].
  simpl. unfold strict_neq.
  destruct (strict_eq (Message.sessionID m) (_getSessionId (store w))) eqn:He;
    [| reflexivity].
  apply strict_eq_true_eq in He. rewrite He in Ht. congruence.
Qed.

(** X5 - An accepted hang-up command dispatches [appNavigate(undefined)]
    and nothing else, in every state, so in particular while a conference
    is active. *)
Theorem hang_up_navigates_to_nothing
  (error : value) (m : Message.t) (w : World) :
  truthy error = false ->
  accepted m w ->
  Message.command m = VStr CMD_HANG_UP ->
  messageCallback error m w = dispatch (appNavigate VUndefined) w /\
  dispatched (trace (snd (messageCallback error m w))) =
    (dispatched (trace w) ++ [appNavigate VUndefined])%list.
Proof.
  intros Herr Hacc Hcmd.
  rewrite (hang_up_always_navigates error m w Herr Hacc Hcmd).
  split; [reflexivity | apply dispatched_dispatch].
Qed.

(** X6 - Only the string "true" mutes: an accepted mute command whose
    payload is anything else (the boolean true, "TRUE", "1", nothing at
    all) dispatches [setAudioMuted(false, true)]. *)
Theorem mute_payload_other_than_true
  (error : value) (m : Message.t) (w : World) :
  truthy error = false ->
  accepted m w ->
  Message.command m = VStr CMD_SET_MUTED ->
  CMD_SET_MUTED <> CMD_HANG_UP ->
  CMD_SET_MUTED <> CMD_JOIN_CONFERENCE ->
  Message.muted m <> VStr "true" ->
  messageCallback error m w = dispatch (setAudioMuted false true) w.
Proof.
  intros Herr Hacc Hcmd Hne1 Hne2 Hm.
  unfold messageCallback. rewrite Herr.
  unfold bind at 1. unfold getState at 1. cbv beta iota.
  rewrite (accepted_guard _ _ Hacc), Hcmd.
  rewrite (strict_eq_str_neq _ _ Hne1), (strict_eq_str_neq _ _ Hne2),
    strict_eq_str_refl.
  now rewrite (strict_eq_neq _ _ Hm).
Qed.

(** X7 - A join command whose url is not of the shape the current URL can
    take (an empty string, a string ending with a slash, a value that is
    neither a string nor undefined) navigates every time it is accepted:
    the comparison with the current URL can never succeed. *)
Theorem join_malformed_url_always_navigates
  (error : value) (m : Message.t) (w : World) :
  truthy error = false ->
  accepted m w ->
  Message.command m = VStr CMD_JOIN_CONFERENCE ->
  CMD_JOIN_CONFERENCE <> CMD_HANG_UP ->
  ~ well_formed_url (Message.data m) ->
  messageCallback error m w = dispatch (appNavigate (Message.data m)) w.
Proof.
  intros Herr Hacc Hcmd Hne Hbad.
  rewrite (join_dispatch error m w Herr Hacc Hcmd Hne).
  destruct (strict_eq (Message.data m) (_getCurrentConferenceUrl (store w)))
    eqn:He; [| reflexivity].
  apply strict_eq_true_eq in He. elim Hbad. rewrite He.
  apply current_url_well_formed.
Qed.

(** X8 - A join command without a url does nothing when no conference is
    active and, when one is, dispatches [appNavigate(undefined)] as a
    hang-up would. *)
Theorem join_without_url (error : value) (m : Message.t) (w : World) :
  truthy error = false ->
  accepted m w ->
  Message.command m = VStr CMD_JOIN_CONFERENCE ->
  CMD_JOIN_CONFERENCE <> CMD_HANG_UP ->
  Message.data m = VUndefined ->
  (_getCurrentConferenceUrl (store w) = VUndefined ->
   messageCallback error m w = (Normal tt, w)) /\
  (_getCurrentConferenceUrl (store w) <> VUndefined ->
   messageCallback error m w = dispatch (appNavigate VUndefined) w).
Proof.
  intros Herr Hacc Hcmd Hne Hdata.
  rewrite (join_dispatch error m w Herr Hacc Hcmd Hne), Hdata.
  split; intros Hurl.
  - now rewrite Hurl.
  - rewrite strict_eq_sym, (strict_eq_neq _ _ Hurl). reflexivity.
Qed.

(** X9 - The current conference URL is always well formed: undefined, or
    a non-empty string that does not end with a slash.  A truthy result is
    therefore always such a string. *)
Theorem current_url_shape (state : State) :
  well_formed_url (_getCurrentConferenceUrl state) /\
  (truthy (_getCurrentConferenceUrl state) = true <->
   _getCurrentConferenceUrl state <> VUndefined).
Proof.
  pose proof (current_url_well_formed state) as Hwf.
  split; [exact Hwf |].
  destruct Hwf as [Hu | (u & Hu & Hne & _)]; rewrite Hu.
  - split; [discriminate | congruence].
  - split; [discriminate | intros _; now apply truthy_str].
Qed.

(* ------------------------------------------------------------------ *)
(** ** Further properties of the publisher and of the middleware *)

Lemma dispatched_after_publish (w : World) :
  dispatched (trace (after_publish w)) = dispatched (trace w).
Proof.
  unfold dispatched, after_publish. simpl. rewrite flat_map_app. simpl.
  destruct (transport (context_of (store w))); simpl; now rewrite app_nil_r.
Qed.

Lemma published_dispatch (a : Action) (w : World) :
  published (trace (snd (dispatch a w))) = published (trace w).
Proof.
  unfold published, dispatch, add_effect. simpl.
  rewrite flat_map_app. simpl. now rewrite app_nil_r.
Qed.

(** X10 - Called with a watch state that is a string, the activation
    callback publishes exactly when there is no error and the state
    lower-cases to "activated".  An error is logged and ends the callback
    even if the state says "activated"; any other string leaves the world
    as it was. *)
Theorem activation_callback_publishes_iff
  (error : value) (watchState : string) (w : World) :
  fst (watchStateCallback error watchState w) = Normal tt /\
  store (snd (watchStateCallback error watchState w)) = store w /\
  published (trace (snd (watchStateCallback error watchState w))) =
    (published (trace w) ++
     if negb (truthy error) && (toLowerCase watchState =? "activated")%string
     then [context_of (store w)]
     else [])%list /\
  (truthy error = true ->
   watchStateCallback error watchState w =
     (Normal tt, add_effect (Error "Error getting watchState" error) w)) /\
  (truthy error = false ->
   toLowerCase watchState <> "activated" ->
   watchStateCallback error watchState w = (Normal tt, w)).
Proof.
  unfold watchStateCallback.
  destruct (truthy error); cbn [negb andb].
  - repeat split; try discriminate.
    unfold published, logger_error, emit, add_effect. simpl.
    rewrite flat_map_app. reflexivity.
  - destruct (toLowerCase watchState =? "activated")%string eqn:Hs.
    + rewrite update_spec. cbn [fst snd]. repeat split; try discriminate.
      * apply published_after_publish.
      * intros _ Hne. apply String.eqb_eq in Hs. contradiction.
    + repeat split; try discriminate.
      unfold ret. cbn [snd]. now rewrite app_nil_r.
Qed.

(** X11 - The session id travels the round trip.  A message that carries
    the sessionID of the context just published is accepted by the session
    check exactly when that id is truthy. *)
Theorem published_session_round_trip
  (w : World) (c : Context.t Entry) (m : Message.t) :
  published (trace (snd (_updateApplicationContext w))) =
    (published (trace w) ++ [c])%list ->
  Message.sessionID m = Context.sessionID c ->
  (accepted m (snd (_updateApplicationContext w)) <->
   truthy (Context.sessionID c) = true).
Proof.
  rewrite update_spec. cbn [snd]. rewrite published_after_publish.
  intros Hc Hm. apply app_inj_tail in Hc. destruct Hc as [_ Hc]. subst c.
  unfold accepted. rewrite Hm. simpl. split.
  - now intros [Ht _].
  - intros Ht. split; [exact Ht | now apply truthy_strict_refl].
Qed.

(** X12 - Most recent first.  For a positive [MAX_RECENT_URLS], the
    entry at position [i] of the [recentURLs] of the context a publish
    hands to the transport is the one [i] places before the end of the
    store's recent list. *)
Theorem recent_urls_newest_first
  (w : World) (c : Context.t Entry) (i : nat) :
  0 < MAX_RECENT_URLS ->
  published (trace (snd (_updateApplicationContext w))) =
    (published (trace w) ++ [c])%list ->
  (i < List.length (Context.recentURLs c))%nat ->
  nth_error (Context.recentURLs c) i =
  nth_error (entries (recentList (store w)))
    (List.length (entries (recentList (store w))) - S i).
Proof.
  intros Hmax. rewrite update_spec. cbn [snd].
  rewrite published_after_publish. intros Hc.
  apply app_inj_tail in Hc. destruct Hc as [_ Hc]. subst c.
  cbn [Context.recentURLs context_of]. unfold _getRecentUrls, reverse.
  rewrite (slice_last_entries _ _ Hmax), last_entries_skipn.
  rewrite length_rev, length_skipn. intros Hi.
  rewrite nth_error_rev, length_skipn.
  replace (i <? _)%nat with true by (symmetry; now apply Nat.ltb_lt).
  rewrite nth_error_skipn. f_equal. lia.
Qed.

(** X14 - The middleware on a joined conference, and on actions it does
    not handle.  For [CONFERENCE_JOINED] it dispatches
    [setConferenceTimestamp] with the current time, publishes once from
    the store as it is after that dispatch, and hands over to [next]
    whether or not the transport accepted the context; the session is not
    rotated.  An action of any other type but [APP_WILL_MOUNT] goes to
    [next] with the world untouched. *)
Theorem middleware_conference_joined
  {R : Type} (now : Z) (next : M R) (actionType : value) (w : World) :
  strict_eq actionType (VStr APP_WILL_MOUNT) = false ->
  (strict_eq actionType (VStr CONFERENCE_JOINED) = true ->
   let w1 :=
     after_publish (snd (dispatch (setConferenceTimestamp (VNum now)) w)) in
   middleware now next actionType w = next w1 /\
   dispatched (trace w1) =
     (dispatched (trace w) ++ [setConferenceTimestamp (VNum now)])%list /\
   published (trace w1) =
     (published (trace w) ++
      [context_of (reduce (setConferenceTimestamp (VNum now)) (store w))])%list /\
   rotations (trace w1) = rotations (trace w)) /\
  (strict_eq actionType (VStr CONFERENCE_JOINED) = false ->
   middleware now next actionType w = next w).
Proof.
  intros Hmount. unfold middleware. rewrite Hmount.
  split; intros Hjoined; rewrite Hjoined.
  - cbn zeta. split.
    + unfold bind at 1. unfold bind at 1.
      unfold dispatch at 1. cbv beta iota. now rewrite update_spec.
    + rewrite dispatched_after_publish, dispatched_dispatch.
      rewrite published_after_publish, published_dispatch.
      rewrite rotations_after_publish.
      repeat split.
      unfold dispatch, add_effect. simpl. rewrite rotations_app.
      unfold rotations at 2. simpl. lia.
  - reflexivity.
Qed.

(** X15 - The middleware on [APP_WILL_MOUNT].  The watch-state callback
    is subscribed first and the message callback second; if either
    subscription throws, the exception leaves the middleware at once, so a
    failure of the first leaves the messages unsubscribed and in both
    cases [next] is not called.  When both return, [next] runs on the
    world they leave. *)
Theorem middleware_app_will_mount
  {R : Type} (now : Z) (next : M R) (w : World) :
  (forall e w1,
     watch_subscribeToWatchState watchStateCallback w = (Throw e, w1) ->
     middleware now next (VStr APP_WILL_MOUNT) w = (Throw e, w1)) /\
  (forall w1 e w2,
     watch_subscribeToWatchState watchStateCallback w = (Normal tt, w1) ->
     watch_subscribeToMessages messageCallback w1 = (Throw e, w2) ->
     middleware now next (VStr APP_WILL_MOUNT) w = (Throw e, w2)) /\
  (forall w1 w2,
     watch_subscribeToWatchState watchStateCallback w = (Normal tt, w1) ->
     watch_subscribeToMessages messageCallback w1 = (Normal tt, w2) ->
     middleware now next (VStr APP_WILL_MOUNT) w = next w2).
Proof.
  unfold middleware, _appWillMount, bind. rewrite strict_eq_str_refl.
  repeat split.
  - intros e w1 H1. now rewrite H1.
  - intros w1 e w2 H1 H2. now rewrite H1, H2.
  - intros w1 w2 H1 H2. now rewrite H1, H2.
Qed.

(* ------------------------------------------------------------------ *)
(** ** Further properties of the notification round *)

Lemma stateChanged_profile (w : World) :
  exists w',
    stateChanged w = (Normal tt, w') /\
    published (trace w') =
      (published (trace w)
       ++ (if differs_ref (prevRecentList (selections w))
                (Some (ref (recentList (store w))))
           then [context_of (store w)] else [])
       ++ (if differs_bool (prevAudioMuted (selections w))
                (Some (_isAudioMuted (store w)))
           then [context_of (store w)] else [])
       ++ (if strict_neq (prevConferenceUrl (selections w))
                (_getCurrentConferenceUrl (store w))
           then [context_of (reduce setSessionId (store w))] else []))%list /\
    dispatched (trace w') =
      (dispatched (trace w)
       ++ (if strict_neq (prevConferenceUrl (selections w))
                (_getCurrentConferenceUrl (store w))
           then [setSessionId] else []))%list /\
    store w' =
      (if strict_neq (prevConferenceUrl (selections w))
            (_getCurrentConferenceUrl (store w))
       then reduce setSessionId (store w) else store w).
Proof.
  unfold stateChanged, recentListListener, audioMutedListener.
  unfold bind at 1. rewrite notify_spec.
  destruct (differs_ref _ _); [rewrite update_spec |];
    (unfold bind at 1; rewrite notify_spec; cbn [snd remember store selections
       after_publish prevAudioMuted prevConferenceUrl];
     destruct (differs_bool _ _); [rewrite update_spec |];
     (rewrite notify_spec; cbn [snd remember store selections
        after_publish prevAudioMuted prevConferenceUrl];
      destruct (strict_neq _ _);
        [rewrite conferenceUrlListener_spec |];
      (eexists; split; [reflexivity |];
       cbn [snd remember store selections trace dispatch add_effect
              after_publish];
       repeat match goal with
              | |- context [match transport ?c with _ => _ end] =>
                  destruct (transport c)
              end;
       unfold published, dispatched;
       rewrite ?flat_map_app; simpl;
       rewrite ?app_nil_r, <- ?app_assoc;
       repeat split))).
Qed.

Lemma differs_ref_false (p : option nat) (r : nat) :
  differs_ref p (Some r) = false -> p = Some r.
Proof.
  destruct p as [x |]; simpl; [| discriminate].
  rewrite negb_false_iff, Nat.eqb_eq. congruence.
Qed.

Lemma differs_bool_false (p : option bool) (b : bool) :
  differs_bool p (Some b) = false -> p = Some b.
Proof.
  destruct p as [x |]; simpl; [| discriminate].
  rewrite negb_false_iff. intros H. apply Bool.eqb_prop in H. congruence.
Qed.

(** X16 - One publish per changed slice.  A notification round publishes
    once for each of the recent list, the mute flag and the conference URL
    whose selection differs from the observed one, in that order.  The
    publishes for the first two are made from the store before the
    rotation; the one for the conference URL follows the [setSessionId]
    dispatch and is made from the store after it. *)
Theorem round_publishes_per_changed_slice (w : World) :
  let d1 :=
    differs_ref (prevRecentList (selections w))
      (Some (ref (recentList (store w)))) in
  let d2 :=
    differs_bool (prevAudioMuted (selections w))
      (Some (_isAudioMuted (store w))) in
  let d3 :=
    strict_neq (prevConferenceUrl (selections w))
      (_getCurrentConferenceUrl (store w)) in
  fst (stateChanged w) = Normal tt /\
  published (trace (snd (stateChanged w))) =
    (published (trace w)
     ++ (if d1 then [context_of (store w)] else [])
     ++ (if d2 then [context_of (store w)] else [])
     ++ (if d3 then [context_of (reduce setSessionId (store w))] else []))%list /\
  dispatched (trace (snd (stateChanged w))) =
    (dispatched (trace w) ++ (if d3 then [setSessionId] else []))%list /\
  Context.sessionID (context_of (reduce setSessionId (store w))) =
    nextSessionID (_getSessionId (store w)) /\
  Context.conferenceURL (context_of (reduce setSessionId (store w))) =
    _getCurrentConferenceUrl (store w).
Proof.
  cbn zeta.
  destruct (stateChanged_profile w) as (w' & Hrun & Hpub & Hdis & _).
  rewrite Hrun. cbn [fst snd]. now repeat split.
Qed.

(** X17 - A round settles the registry.  Running a second round right
    after a round changes nothing: no publish, no dispatch.  So the
    [setSessionId] dispatched inside a round cannot start a chain of
    rounds, and a store update that touches no watched slice is silent. *)
Theorem round_is_idempotent (w : World) :
  stateChanged (snd (stateChanged w)) = (Normal tt, snd (stateChanged w)) /\
  (stateChanged ;; stateChanged) w = stateChanged w.
Proof.
  pose proof (settled_round_idle _ (stateChanged_settles w)) as Hidle.
  split; [exact Hidle |].
  unfold bind.
  destruct (stateChanged_facts w) as (w' & Hrun & _).
  rewrite Hrun in *. exact Hidle.
Qed.

(** X18 - A mute toggle in a settled world.  If the flag really changes,
    exactly one context is published, with [micMuted] the new flag and the
    session id and conference URL as before, and nothing is dispatched; if
    the flag is set to the value it has, nothing is published. *)
Theorem mute_toggle_publishes_once (b : bool) (w : World) :
  settled w ->
  let s' := apply_change (MuteToggled b) (store w) in
  let w' := snd (hostStep (MuteToggled b) w) in
  published (trace w') =
    (published (trace w)
     ++ if Bool.eqb (audioMuted (store w)) b then [] else [context_of s'])%list /\
  dispatched (trace w') = dispatched (trace w) /\
  Context.micMuted (context_of s') = b /\
  Context.sessionID (context_of s') = _getSessionId (store w) /\
  Context.conferenceURL (context_of s') = _getCurrentConferenceUrl (store w).
Proof.
  intros (Hr & Hm & Hu). cbn zeta.
  destruct (stateChanged_profile
              {| store := apply_change (MuteToggled b) (store w);
                 selections := selections w; trace := trace w |})
    as (w' & Hrun & Hpub & Hdis & _).
  change (hostStep (MuteToggled b) w) with
    (stateChanged
       {| store := apply_change (MuteToggled b) (store w);
          selections := selections w; trace := trace w |}).
  rewrite Hrun. cbn [snd].
  cbn [store selections trace] in Hpub, Hdis.
  change (_getCurrentConferenceUrl (apply_change (MuteToggled b) (store w)))
    with (_getCurrentConferenceUrl (store w)) in Hpub, Hdis.
  change (recentList (apply_change (MuteToggled b) (store w)))
    with (recentList (store w)) in Hpub.
  rewrite Hr, Hu in Hpub. rewrite Hu in Hdis.
  apply differs_bool_false in Hm. rewrite Hm in Hpub.
  cbn [_isAudioMuted audioMuted apply_change differs_bool] in Hpub.
  rewrite app_nil_r in Hpub, Hdis. cbn [app] in Hpub.
  repeat split; try assumption.
  rewrite Hpub. unfold _isAudioMuted.
  now destruct (Bool.eqb (audioMuted (store w)) b).
Qed.

(** X19 - A recent-list edit in a settled world.  If the store now holds
    another array, exactly one context is published, carrying the
    projection of the new list; if the array is the same object as before,
    the selection compares equal and nothing is published, whatever its
    elements are.  Nothing is dispatched either way. *)
Theorem recent_list_edit_publishes_once (r : RecentList) (w : World) :
  settled w ->
  let s' := apply_change (RecentListEdited r) (store w) in
  let w' := snd (hostStep (RecentListEdited r) w) in
  published (trace w') =
    (published (trace w)
     ++ if (ref (recentList (store w)) =? ref r)%nat
        then [] else [context_of s'])%list /\
  dispatched (trace w') = dispatched (trace w) /\
  Context.recentURLs (context_of s') =
    rev (slice (entries r) (- MAX_RECENT_URLS)) /\
  Context.sessionID (context_of s') = _getSessionId (store w).
Proof.
  intros (Hr & Hm & Hu). cbn zeta.
  destruct (stateChanged_profile
              {| store := apply_change (RecentListEdited r) (store w);
                 selections := selections w; trace := trace w |})
    as (w' & Hrun & Hpub & Hdis & _).
  change (hostStep (RecentListEdited r) w) with
    (stateChanged
       {| store := apply_change (RecentListEdited r) (store w);
          selections := selections w; trace := trace w |}).
  rewrite Hrun. cbn [snd].
  cbn [store selections trace] in Hpub, Hdis.
  change (_getCurrentConferenceUrl
            (apply_change (RecentListEdited r) (store w)))
    with (_getCurrentConferenceUrl (store w)) in Hpub, Hdis.
  change (_isAudioMuted (apply_change (RecentListEdited r) (store w)))
    with (_isAudioMuted (store w)) in Hpub.
  rewrite Hm, Hu in Hpub. rewrite Hu in Hdis.
  apply differs_ref_false in Hr. rewrite Hr in Hpub.
  cbn [apply_change recentList differs_ref] in Hpub.
  rewrite !app_nil_r in Hpub. rewrite app_nil_r in Hdis.
  repeat split; try assumption.
  rewrite Hpub.
  now destruct (ref (recentList (store w)) =? ref r)%nat.
Qed.

(** X20 - Staleness across a rotation.  With a scheme that never hands
    out the current id again: a message accepted before a change of the
    conference URL is rejected, with the warning and without any dispatch,
    once the registry has processed that change. *)
Theorem rotation_invalidates_commands
  (error : value) (m : Message.t) (c : HostChange) (w : World) :
  (forall v, strict_eq (nextSessionID v) v = false) ->
  truthy error = false ->
  synced w ->
  accepted m w ->
  strict_eq (_getCurrentConferenceUrl (store w))
    (_getCurrentConferenceUrl (apply_change c (store w))) = false ->
  let w' := snd (hostStep c w) in
  _getSessionId (store w') = nextSessionID (_getSessionId (store w)) /\
  messageCallback error m w' =
    (Normal tt,
     add_effect (Warn (outdated_warning m (_getSessionId (store w')))) w').
Proof.
  intros Hfresh Herr Hsync [Ht He] Hurl. cbn zeta.
  destruct (hostStep_facts c w) as (w1 & Hrun & Hstore & _).
  cbn zeta in Hstore. rewrite Hsync, Hurl in Hstore.
  rewrite Hrun. cbn [snd].
  assert (Hsid :
    _getSessionId (store w1) = nextSessionID (_getSessionId (store w))).
  { rewrite Hstore. unfold _getSessionId. simpl.
    now rewrite apply_change_watchos. }
  split; [exact Hsid |].
  apply rejected_message; [assumption |].
  rewrite Ht. simpl. unfold strict_neq. rewrite Hsid.
  apply strict_eq_true_eq in He. rewrite He.
  now rewrite strict_eq_sym, Hfresh.
Qed.

(** X21 - Commands survive the other changes.  A message accepted before
    a host change that leaves the conference URL as it was (a mute toggle,
    a recent-list edit, a redundant update) is still accepted after the
    registry has processed the change. *)
Theorem acceptance_survives_other_changes
  (m : Message.t) (c : HostChange) (w : World) :
  synced w ->
  accepted m w ->
  keeps_url c = true ->
  accepted m (snd (hostStep c w)).
Proof.
  intros Hsync Hacc Hkeep.
  destruct (hostStep_facts c w) as (w1 & Hrun & Hstore & _).
  cbn zeta in Hstore.
  rewrite Hsync, (keeps_url_sound c (store w) Hkeep), url_strict_refl
    in Hstore.
  rewrite Hrun. cbn [snd]. unfold accepted, _getSessionId in *.
  now rewrite Hstore, apply_change_watchos.
Qed.

End Middleware.

(* ------------------------------------------------------------------ *)
(** ** The properties on sample data *)

Abbreviation onMessage :=
  (messageCallback string Sample.inert Sample.counter
     Sample.HANG_UP Sample.JOIN_CONFERENCE Sample.SET_MUTED).

Abbreviation currentUrl := (_getCurrentConferenceUrl string).

Lemma counter_fresh (v : value) : strict_eq (Sample.counter v) v = false.
Proof.
  destruct v; try reflexivity. simpl. apply Z.eqb_neq. lia.
Qed.

(** C1 - Hang-up with no active conference.  With the invite URL not
    ready there is no current conference URL, yet an accepted hang-up
    command dispatches [appNavigate(undefined)]: the guard in front of the
    dispatch compares the string that [typeof] returns with [undefined]
    and so never fails. *)
Theorem hang_up_without_conference_navigates
  (host : Action -> State string -> State string)
  (nextSessionID : value -> value)
  (CMD_HANG_UP CMD_JOIN_CONFERENCE CMD_SET_MUTED : string) :
  currentUrl Sample.idle = VUndefined /\
  dispatched string
    (trace
       (snd
          (messageCallback string host nextSessionID
             CMD_HANG_UP CMD_JOIN_CONFERENCE CMD_SET_MUTED
             VUndefined
             (Sample.message (VStr CMD_HANG_UP) (VNum 1) VUndefined VUndefined)
             (Sample.world Sample.idle VUndefined)))) =
  [appNavigate VUndefined].
Proof.
  split; [reflexivity |].
  rewrite hang_up_always_navigates; try reflexivity.
  split; reflexivity.
Qed.

Lemma staleness_rejection_witness :
  truthy VUndefined = false /\
  strict_eq (VNum 1) (VNum 2) = false /\
  onMessage VUndefined
    (Sample.message (VStr "joinConference") (VNum 1)
       (VStr "https://x/other") VUndefined)
    (Sample.world (Sample.state true (Some "https://x/room") (VNum 2))
       (VStr "https://x/room")) =
  (Normal tt,
   add_effect string
     (Warn
        "Ignoring outdated watch command: joinConference sessionID: 1 current session ID: 2")
     (Sample.world (Sample.state true (Some "https://x/room") (VNum 2))
        (VStr "https://x/room"))).
Proof.
  split; [reflexivity |]. split; [reflexivity |].
  exact
    (proj1
       (staleness_rejection string Sample.inert Sample.counter
          Sample.HANG_UP Sample.JOIN_CONFERENCE Sample.SET_MUTED
          VUndefined
          (Sample.message (VStr "joinConference") (VNum 1)
             (VStr "https://x/other") VUndefined)
          (Sample.world (Sample.state true (Some "https://x/room") (VNum 2))
             (VStr "https://x/room"))
          eq_refl (or_intror eq_refl))).
Defined.

Lemma session_check_truthy_and_strict_witness :
  (* the number 0 against the current session 0 *)
  (truthy (VNum 0) = false /\ strict_eq (VNum 0) (VNum 0) = true /\
   dispatched string
     (trace
        (snd
           (onMessage VUndefined
              (Sample.message (VStr "hangup") (VNum 0) VUndefined VUndefined)
              (Sample.world (Sample.state false None (VNum 0)) VUndefined)))) =
   []) /\
  (* the string "5" against the current session 5 *)
  (typeof (VStr "5") <> typeof (VNum 5) /\
   dispatched string
     (trace
        (snd
           (onMessage VUndefined
              (Sample.message (VStr "hangup") (VStr "5") VUndefined VUndefined)
              (Sample.world (Sample.state false None (VNum 5)) VUndefined)))) =
   []).
Proof.
  split.
  - split; [reflexivity |]. split; [reflexivity |].
    exact
      (proj2
         (session_check_truthy_and_strict string Sample.inert Sample.counter
            Sample.HANG_UP Sample.JOIN_CONFERENCE Sample.SET_MUTED
            VUndefined
            (Sample.message (VStr "hangup") (VNum 0) VUndefined VUndefined)
            (Sample.world (Sample.state false None (VNum 0)) VUndefined)
            eq_refl (or_introl eq_refl))).
  - assert (Htype : typeof (VStr "5") <> typeof (VNum 5))
      by (simpl; discriminate).
    split; [exact Htype |].
    exact
      (proj2
         (session_check_truthy_and_strict string Sample.inert Sample.counter
            Sample.HANG_UP Sample.JOIN_CONFERENCE Sample.SET_MUTED
            VUndefined
            (Sample.message (VStr "hangup") (VStr "5") VUndefined VUndefined)
            (Sample.world (Sample.state false None (VNum 5)) VUndefined)
            eq_refl (or_intror Htype))).
Defined.

Lemma idempotent_join_witness :
  (* already in the room that is asked for: nothing happens, twice over *)
  (accepted string
     (Sample.message (VStr "joinConference") (VNum 1)
        (VStr "https://x/room") VUndefined)
     (Sample.world Sample.in_room (VStr "https://x/room")) /\
   bind string
     (onMessage VUndefined
        (Sample.message (VStr "joinConference") (VNum 1)
           (VStr "https://x/room") VUndefined))
     (fun _ =>
        onMessage VUndefined
          (Sample.message (VStr "joinConference") (VNum 1)
             (VStr "https://x/room") VUndefined))
     (Sample.world Sample.in_room (VStr "https://x/room")) =
   (Normal tt, Sample.world Sample.in_room (VStr "https://x/room"))) /\
  (* another room is asked for: one navigation to it *)
  dispatched string
    (trace
       (snd
          (onMessage VUndefined
             (Sample.message (VStr "joinConference") (VNum 1)
                (VStr "https://x/other") VUndefined)
             (Sample.world Sample.in_room (VStr "https://x/room"))))) =
  [appNavigate (VStr "https://x/other")].
Proof.
  assert (Hacc : forall url,
    accepted string
      (Sample.message (VStr "joinConference") (VNum 1) url VUndefined)
      (Sample.world Sample.in_room (VStr "https://x/room")))
    by (intros url; split; reflexivity).
  assert (Hne : Sample.JOIN_CONFERENCE <> Sample.HANG_UP)
    by (unfold Sample.JOIN_CONFERENCE, Sample.HANG_UP; discriminate).
  split; [split; [apply Hacc |] |].
  - exact
      (proj2
         (proj1
            (idempotent_join string Sample.inert Sample.counter
               Sample.HANG_UP Sample.JOIN_CONFERENCE Sample.SET_MUTED
               VUndefined
               (Sample.message (VStr "joinConference") (VNum 1)
                  (VStr "https://x/room") VUndefined)
               (Sample.world Sample.in_room (VStr "https://x/room"))
               eq_refl (Hacc _) eq_refl Hne)
            eq_refl)).
  - exact
      (proj2
         (proj2
            (idempotent_join string Sample.inert Sample.counter
               Sample.HANG_UP Sample.JOIN_CONFERENCE Sample.SET_MUTED
               VUndefined
               (Sample.message (VStr "joinConference") (VNum 1)
                  (VStr "https://x/other") VUndefined)
               (Sample.world Sample.in_room (VStr "https://x/room"))
               eq_refl (Hacc _) eq_refl Hne)
            eq_refl)).
Defined.

Lemma mute_command_dispatch_witness :
  accepted string
    (Sample.message (VStr "setMuted") (VNum 1) VUndefined (VStr "true"))
    (Sample.world Sample.in_room (VStr "https://x/room")) /\
  dispatched string
    (trace
       (snd
          (onMessage VUndefined
             (Sample.message (VStr "setMuted") (VNum 1) VUndefined (VStr "true"))
             (Sample.world Sample.in_room (VStr "https://x/room"))))) =
  [setAudioMuted true true].
Proof.
  assert (Hacc :
    accepted string
      (Sample.message (VStr "setMuted") (VNum 1) VUndefined (VStr "true"))
      (Sample.world Sample.in_room (VStr "https://x/room")))
    by (split; reflexivity).
  assert (Hne1 : Sample.SET_MUTED <> Sample.HANG_UP)
    by (unfold Sample.SET_MUTED, Sample.HANG_UP; discriminate).
  assert (Hne2 : Sample.SET_MUTED <> Sample.JOIN_CONFERENCE)
    by (unfold Sample.SET_MUTED, Sample.JOIN_CONFERENCE; discriminate).
  split; [exact Hacc |].
  exact
    (proj2
       (proj2
          (mute_command_dispatch string Sample.inert Sample.counter
             Sample.HANG_UP Sample.JOIN_CONFERENCE Sample.SET_MUTED
             VUndefined
             (Sample.message (VStr "setMuted") (VNum 1) VUndefined (VStr "true"))
             (Sample.world Sample.in_room (VStr "https://x/room"))
             eq_refl Hacc eq_refl Hne1 Hne2))
       eq_refl).
Defined.

Lemma reconnect_recovery_witness :
  toLowerCase "Activated" = "activated" /\
  published string
    (trace
       (snd
          (watchStateCallback string Sample.sends Sample.MAX
             VUndefined "Activated"
             (Sample.world Sample.in_room (VStr "https://x/room"))))) =
  [ {| Context.conferenceTimestamp := VUndefined;
       Context.conferenceURL := VStr "https://x/room";
       Context.micMuted := false;
       Context.recentURLs := ["e"; "d"; "c"];
       Context.sessionID := VNum 1 |} ].
Proof.
  split; [reflexivity |].
  exact
    (proj2
       (proj2
          (reconnect_recovery string Sample.sends Sample.MAX
             VUndefined "Activated"
             (Sample.world Sample.in_room (VStr "https://x/room"))
             eq_refl eq_refl))).
Defined.

Lemma publish_failure_contained_witness :
  Sample.fails (context_of string Sample.MAX Sample.in_room) =
    Some (VStr "not reachable") /\
  _updateApplicationContext string Sample.fails Sample.MAX
    (Sample.world Sample.in_room (VStr "https://x/room")) =
  (Normal tt,
   {| store := Sample.in_room;
      selections :=
        selections (Sample.world Sample.in_room (VStr "https://x/room"));
      trace :=
        [UpdateApplicationContext (context_of string Sample.MAX Sample.in_room);
         Error "Failed to stringify or send the context"
           (VStr "not reachable")] |}).
Proof.
  split; [reflexivity |].
  exact
    (proj1
       (publish_failure_contained string Sample.fails Sample.inert
          Sample.counter Sample.MAX
          (Sample.world Sample.in_room (VStr "https://x/room")))).
Defined.

Lemma recent_list_projection_witness :
  0 < Sample.MAX /\
  entries (recentList Sample.idle) = ["a"; "b"; "c"; "d"; "e"] /\
  map Context.recentURLs
    (published string
       (trace
          (snd
             (_updateApplicationContext string Sample.sends Sample.MAX
                (Sample.world Sample.idle VUndefined))))) =
  [["e"; "d"; "c"]].
Proof.
  assert (Hmax : 0 < Sample.MAX) by reflexivity.
  split; [exact Hmax |]. split; [reflexivity |].
  destruct
    (recent_list_projection string Sample.sends Sample.MAX
       (Sample.world Sample.idle VUndefined) Hmax)
    as (c & Hpub & Hrec & _).
  rewrite Hpub. simpl. rewrite Hrec. reflexivity.
Defined.

(** With [MAX_RECENT_URLS] zero the slice starts at index 0 and the whole
    list is published. *)
Example recent_list_projection_zero :
  _getRecentUrls string 0 Sample.idle = ["e"; "d"; "c"; "b"; "a"].
Proof. reflexivity. Qed.

(** C5 - the claim as stated fails on the empty URL string: the invite URL
    is ready and the string does not end with a slash, yet the result is
    [undefined] and not the string. *)
Lemma url_canonicalization_empty_string :
  inviteURLReady (Sample.state true (Some "") (VNum 1)) = true /\
  inviteURLString (Sample.state true (Some "") (VNum 1)) = Some "" /\
  last_char "" <> Some "/"%char /\
  currentUrl (Sample.state true (Some "") (VNum 1)) <> VStr "" /\
  currentUrl (Sample.state true (Some "") (VNum 1)) = VUndefined.
Proof.
  repeat split; try reflexivity; discriminate.
Qed.

Lemma url_canonicalization_witness :
  currentUrl (Sample.state true (Some "https://x/room/") (VNum 1)) = VUndefined /\
  currentUrl (Sample.state true (Some "https://x/room") (VNum 1)) =
    VStr "https://x/room" /\
  currentUrl (Sample.state false (Some "https://x/room") (VNum 1)) = VUndefined /\
  currentUrl (Sample.state true (Some "") (VNum 1)) = VUndefined.
Proof.
  split; [| split; [| split]].
  - exact
      (proj1 (proj2 (proj2 (proj2
         (url_canonicalization string
            (Sample.state true (Some "https://x/room/") (VNum 1))))))
         "https://x/room/" eq_refl eq_refl).
  - assert (Hne : "https://x/room" <> "") by discriminate.
    assert (Hlast : last_char "https://x/room" <> Some "/"%char)
      by (simpl; discriminate).
    exact
      (proj2 (proj2 (proj2 (proj2
         (url_canonicalization string
            (Sample.state true (Some "https://x/room") (VNum 1))))))
         "https://x/room" eq_refl eq_refl Hne Hlast).
  - exact
      (proj1
         (url_canonicalization string
            (Sample.state false (Some "https://x/room") (VNum 1)))
         eq_refl).
  - exact
      (proj1 (proj2 (proj2
         (url_canonicalization string
            (Sample.state true (Some "") (VNum 1)))))
         eq_refl).
Defined.

Lemma session_rotation_invariant_witness :
  (* from room r0: to r1, r1 again, a mute toggle, then r2 *)
  rotations string
    (trace
       (snd
          (hostSteps string Sample.sends Sample.inert Sample.counter Sample.MAX
             [InviteURLChanged string true (Some "https://x/r1");
              InviteURLChanged string true (Some "https://x/r1");
              MuteToggled string true;
              InviteURLChanged string true (Some "https://x/r2")]
             (Sample.world
                (Sample.state true (Some "https://x/r0") (VNum 1))
                (VStr "https://x/r0"))))) = 2%nat /\
  _getSessionId string
    (store
       (snd
          (hostSteps string Sample.sends Sample.inert Sample.counter Sample.MAX
             [InviteURLChanged string true (Some "https://x/r1");
              InviteURLChanged string true (Some "https://x/r1");
              MuteToggled string true;
              InviteURLChanged string true (Some "https://x/r2")]
             (Sample.world
                (Sample.state true (Some "https://x/r0") (VNum 1))
                (VStr "https://x/r0"))))) = VNum 3.
Proof.
  exact
    (proj2
       (proj1
          (session_rotation_invariant string Sample.sends Sample.inert
             Sample.counter Sample.MAX counter_fresh)
          [InviteURLChanged string true (Some "https://x/r1");
           InviteURLChanged string true (Some "https://x/r1");
           MuteToggled string true;
           InviteURLChanged string true (Some "https://x/r2")]
          (Sample.world
             (Sample.state true (Some "https://x/r0") (VNum 1))
             (VStr "https://x/r0")))).
Defined.

(* ------------------------------------------------------------------ *)
(** ** The further properties on sample data *)

Abbreviation inRoom := (Sample.world Sample.in_room (VStr "https://x/room")).

Abbreviation atRest := (Sample.world Sample.idle VUndefined).

Abbreviation hangUp := (Sample.message (VStr "hangup") (VNum 1) VUndefined VUndefined).

Lemma message_error_only_logged_witness :
  truthy (VStr "not reachable") = true /\
  onMessage (VStr "not reachable") hangUp inRoom =
    (Normal tt,
     add_effect string
       (Error "watch.subscribeToMessages error:" (VStr "not reachable"))
       inRoom).
Proof.
  split; [reflexivity |].
  exact
    (proj1
       (message_error_only_logged string Sample.inert Sample.counter
          Sample.HANG_UP Sample.JOIN_CONFERENCE Sample.SET_MUTED
          (VStr "not reachable") hangUp inRoom eq_refl)).
Defined.

Lemma unknown_command_ignored_witness :
  accepted string
    (Sample.message (VStr "ping") (VNum 1) VUndefined VUndefined) inRoom /\
  onMessage VUndefined
    (Sample.message (VStr "ping") (VNum 1) VUndefined VUndefined) inRoom =
  (Normal tt, inRoom).
Proof.
  assert (Hacc :
    accepted string
      (Sample.message (VStr "ping") (VNum 1) VUndefined VUndefined) inRoom)
    by (split; reflexivity).
  split; [exact Hacc |].
  apply (unknown_command_ignored string Sample.inert Sample.counter
           Sample.HANG_UP Sample.JOIN_CONFERENCE Sample.SET_MUTED
           VUndefined
           (Sample.message (VStr "ping") (VNum 1) VUndefined VUndefined)
           inRoom eq_refl Hacc); cbv; discriminate.
Defined.

Lemma no_command_without_session_witness :
  truthy VUndefined = false /\
  dispatched string
    (trace
       (snd
          (onMessage VUndefined hangUp
             (Sample.world
                (Sample.state true (Some "https://x/room") VUndefined)
                (VStr "https://x/room"))))) = [] /\
  warnings string
    (trace
       (snd
          (onMessage VUndefined hangUp
             (Sample.world
                (Sample.state true (Some "https://x/room") VUndefined)
                (VStr "https://x/room"))))) =
  ["Ignoring outdated watch command: hangup sessionID: 1 current session ID: undefined"].
Proof.
  split; [reflexivity |].
  pose proof
    (no_command_without_session string Sample.inert Sample.counter
       Sample.HANG_UP Sample.JOIN_CONFERENCE Sample.SET_MUTED
       VUndefined hangUp
       (Sample.world
          (Sample.state true (Some "https://x/room") VUndefined)
          (VStr "https://x/room"))
       eq_refl eq_refl) as Hrun.
  split.
  - exact (f_equal (fun r => dispatched string (trace (snd r))) Hrun).
  - exact (f_equal (fun r => warnings string (trace (snd r))) Hrun).
Defined.

Lemma hang_up_navigates_to_nothing_witness :
  accepted string hangUp inRoom /\
  currentUrl Sample.in_room = VStr "https://x/room" /\
  dispatched string (trace (snd (onMessage VUndefined hangUp inRoom))) =
  [appNavigate VUndefined].
Proof.
  assert (Hacc : accepted string hangUp inRoom) by (split; reflexivity).
  split; [exact Hacc |]. split; [reflexivity |].
  exact
    (proj2
       (hang_up_navigates_to_nothing string Sample.inert Sample.counter
          Sample.HANG_UP Sample.JOIN_CONFERENCE Sample.SET_MUTED
          VUndefined hangUp inRoom eq_refl Hacc eq_refl)).
Defined.

Lemma mute_payload_other_than_true_witness :
  VBool true <> VStr "true" /\
  dispatched string
    (trace
       (snd
          (onMessage VUndefined
             (Sample.message (VStr "setMuted") (VNum 1) VUndefined (VBool true))
             inRoom))) =
  [setAudioMuted false true].
Proof.
  assert (Hacc :
    accepted string
      (Sample.message (VStr "setMuted") (VNum 1) VUndefined (VBool true))
      inRoom) by (split; reflexivity).
  assert (Hne1 : Sample.SET_MUTED <> Sample.HANG_UP) by (cbv; discriminate).
  assert (Hne2 : Sample.SET_MUTED <> Sample.JOIN_CONFERENCE)
    by (cbv; discriminate).
  assert (Hm : VBool true <> VStr "true") by discriminate.
  split; [exact Hm |].
  exact
    (f_equal (fun r => dispatched string (trace (snd r)))
       (mute_payload_other_than_true string Sample.inert Sample.counter
          Sample.HANG_UP Sample.JOIN_CONFERENCE Sample.SET_MUTED
          VUndefined
          (Sample.message (VStr "setMuted") (VNum 1) VUndefined (VBool true))
          inRoom eq_refl Hacc eq_refl Hne1 Hne2 Hm)).
Defined.

Lemma join_malformed_url_always_navigates_witness :
  ~ well_formed_url (VStr "https://x/room/") /\
  dispatched string
    (trace
       (snd
          (onMessage VUndefined
             (Sample.message (VStr "joinConference") (VNum 1)
                (VStr "https://x/room/") VUndefined)
             (Sample.world
                (Sample.state true (Some "https://x/room/") (VNum 1))
                VUndefined)))) =
  [appNavigate (VStr "https://x/room/")].
Proof.
  assert (Hbad : ~ well_formed_url (VStr "https://x/room/")).
  { intros [H | (u & Hu & _ & Hlast)]; [discriminate |].
    inversion Hu; subst u. now apply Hlast. }
  assert (Hacc :
    accepted string
      (Sample.message (VStr "joinConference") (VNum 1)
         (VStr "https://x/room/") VUndefined)
      (Sample.world
         (Sample.state true (Some "https://x/room/") (VNum 1)) VUndefined))
    by (split; reflexivity).
  assert (Hne : Sample.JOIN_CONFERENCE <> Sample.HANG_UP)
    by (cbv; discriminate).
  split; [exact Hbad |].
  exact
    (f_equal (fun r => dispatched string (trace (snd r)))
       (join_malformed_url_always_navigates string Sample.inert Sample.counter
          Sample.HANG_UP Sample.JOIN_CONFERENCE Sample.SET_MUTED
          VUndefined
          (Sample.message (VStr "joinConference") (VNum 1)
             (VStr "https://x/room/") VUndefined)
          (Sample.world
             (Sample.state true (Some "https://x/room/") (VNum 1)) VUndefined)
          eq_refl Hacc eq_refl Hne Hbad)).
Defined.

Lemma join_without_url_witness :
  onMessage VUndefined
    (Sample.message (VStr "joinConference") (VNum 1) VUndefined VUndefined)
    atRest = (Normal tt, atRest) /\
  dispatched string
    (trace
       (snd
          (onMessage VUndefined
             (Sample.message (VStr "joinConference") (VNum 1)
                VUndefined VUndefined)
             inRoom))) =
  [appNavigate VUndefined].
Proof.
  assert (Hne : Sample.JOIN_CONFERENCE <> Sample.HANG_UP)
    by (cbv; discriminate).
  assert (Hin : currentUrl Sample.in_room <> VUndefined) by discriminate.
  split.
  - exact
      (proj1
         (join_without_url string Sample.inert Sample.counter
            Sample.HANG_UP Sample.JOIN_CONFERENCE Sample.SET_MUTED
            VUndefined
            (Sample.message (VStr "joinConference") (VNum 1)
               VUndefined VUndefined)
            atRest eq_refl (conj eq_refl eq_refl) eq_refl Hne eq_refl)
         eq_refl).
  - exact
      (f_equal (fun r => dispatched string (trace (snd r)))
         (proj2
            (join_without_url string Sample.inert Sample.counter
               Sample.HANG_UP Sample.JOIN_CONFERENCE Sample.SET_MUTED
               VUndefined
               (Sample.message (VStr "joinConference") (VNum 1)
                  VUndefined VUndefined)
               inRoom eq_refl (conj eq_refl eq_refl) eq_refl Hne eq_refl)
            Hin)).
Defined.

Lemma current_url_shape_witness :
  well_formed_url (currentUrl Sample.in_room) /\
  well_formed_url
    (currentUrl (Sample.state true (Some "https://x/room/") (VNum 1))).
Proof.
  split.
  - exact (proj1 (current_url_shape string Sample.in_room)).
  - exact
      (proj1
         (current_url_shape string
            (Sample.state true (Some "https://x/room/") (VNum 1)))).
Defined.

Lemma activation_callback_publishes_iff_witness :
  (* an error ends the callback although the state says "activated" *)
  (truthy (VStr "not paired") = true /\
   watchStateCallback string Sample.sends Sample.MAX
     (VStr "not paired") "Activated" inRoom =
   (Normal tt,
    add_effect string (Error "Error getting watchState" (VStr "not paired"))
      inRoom)) /\
  (* any other state is ignored *)
  (toLowerCase "Inactive" <> "activated" /\
   watchStateCallback string Sample.sends Sample.MAX
     VUndefined "Inactive" inRoom = (Normal tt, inRoom)).
Proof.
  assert (Hne : toLowerCase "Inactive" <> "activated") by (cbv; discriminate).
  split; (split; [reflexivity || exact Hne |]).
  - exact
      (proj1 (proj2 (proj2 (proj2
         (activation_callback_publishes_iff string Sample.sends Sample.MAX
            (VStr "not paired") "Activated" inRoom))))
         eq_refl).
  - exact
      (proj2 (proj2 (proj2 (proj2
         (activation_callback_publishes_iff string Sample.sends Sample.MAX
            VUndefined "Inactive" inRoom))))
         eq_refl Hne).
Defined.

Lemma published_session_round_trip_witness :
  Message.sessionID hangUp =
    Context.sessionID (context_of string Sample.MAX Sample.in_room) /\
  accepted string hangUp
    (snd (_updateApplicationContext string Sample.sends Sample.MAX inRoom)).
Proof.
  split; [reflexivity |].
  exact
    (proj2
       (published_session_round_trip string Sample.sends Sample.MAX
          inRoom (context_of string Sample.MAX Sample.in_room) hangUp
          eq_refl eq_refl)
       eq_refl).
Defined.

Lemma recent_urls_newest_first_witness :
  published string
    (trace
       (snd (_updateApplicationContext string Sample.sends Sample.MAX atRest))) =
    [context_of string Sample.MAX Sample.idle] /\
  nth_error
    (Context.recentURLs (context_of string Sample.MAX Sample.idle)) 1 =
  Some "d".
Proof.
  assert (Hmax : 0 < Sample.MAX) by reflexivity.
  assert (Hpub :
    published string
      (trace
         (snd
            (_updateApplicationContext string Sample.sends Sample.MAX atRest))) =
    [context_of string Sample.MAX Sample.idle]) by reflexivity.
  assert (Hi :
    (1 < List.length
           (Context.recentURLs (context_of string Sample.MAX Sample.idle)))%nat)
    by (vm_compute; lia).
  split; [exact Hpub |].
  exact
    (recent_urls_newest_first string Sample.sends Sample.MAX atRest
       (context_of string Sample.MAX Sample.idle) 1 Hmax Hpub Hi).
Defined.

Abbreviation subscribes :=
  (fun _ (w : World string) => (@Normal unit tt, w)).

Abbreviation refuses :=
  (fun _ (w : World string) => (@Throw unit (VStr "no session"), w)).

Abbreviation finish := (fun w : World string => (@Normal unit tt, w)).

Lemma middleware_conference_joined_witness :
  strict_eq (VStr "CONFERENCE_JOINED") (VStr Sample.APP_WILL_MOUNT) = false /\
  (* joined at time 1000 while the transport fails: the action still goes on *)
  middleware string Sample.fails Sample.inert Sample.counter
    Sample.HANG_UP Sample.JOIN_CONFERENCE Sample.SET_MUTED Sample.MAX
    Sample.APP_WILL_MOUNT Sample.CONFERENCE_JOINED subscribes subscribes
    1000 finish (VStr "CONFERENCE_JOINED") inRoom =
  (Normal tt,
   after_publish string Sample.fails Sample.MAX
     (snd
        (dispatch string Sample.inert Sample.counter
           (setConferenceTimestamp (VNum 1000)) inRoom))) /\
  (* an action of another type passes through *)
  middleware string Sample.fails Sample.inert Sample.counter
    Sample.HANG_UP Sample.JOIN_CONFERENCE Sample.SET_MUTED Sample.MAX
    Sample.APP_WILL_MOUNT Sample.CONFERENCE_JOINED subscribes subscribes
    1000 finish (VStr "SET_ROOM") inRoom =
  (Normal tt, inRoom).
Proof.
  split; [reflexivity |]. split.
  - exact
      (proj1
         (proj1
            (middleware_conference_joined string Sample.fails Sample.inert
               Sample.counter
               Sample.HANG_UP Sample.JOIN_CONFERENCE Sample.SET_MUTED
               Sample.MAX Sample.APP_WILL_MOUNT Sample.CONFERENCE_JOINED
               subscribes subscribes 1000 finish
               (VStr "CONFERENCE_JOINED") inRoom eq_refl)
            eq_refl)).
  - exact
      (proj2
         (middleware_conference_joined string Sample.fails Sample.inert
            Sample.counter
            Sample.HANG_UP Sample.JOIN_CONFERENCE Sample.SET_MUTED
            Sample.MAX Sample.APP_WILL_MOUNT Sample.CONFERENCE_JOINED
            subscribes subscribes 1000 finish
            (VStr "SET_ROOM") inRoom eq_refl)
         eq_refl).
Defined.

Lemma middleware_app_will_mount_witness :
  (* the first subscription throws *)
  middleware string Sample.sends Sample.inert Sample.counter
    Sample.HANG_UP Sample.JOIN_CONFERENCE Sample.SET_MUTED Sample.MAX
    Sample.APP_WILL_MOUNT Sample.CONFERENCE_JOINED refuses subscribes
    1000 finish (VStr "APP_WILL_MOUNT") atRest =
  (Throw (VStr "no session"), atRest) /\
  (* both subscriptions return *)
  middleware string Sample.sends Sample.inert Sample.counter
    Sample.HANG_UP Sample.JOIN_CONFERENCE Sample.SET_MUTED Sample.MAX
    Sample.APP_WILL_MOUNT Sample.CONFERENCE_JOINED subscribes subscribes
    1000 finish (VStr "APP_WILL_MOUNT") atRest =
  (Normal tt, atRest).
Proof.
  split.
  - exact
      (proj1
         (middleware_app_will_mount string Sample.sends Sample.inert
            Sample.counter
            Sample.HANG_UP Sample.JOIN_CONFERENCE Sample.SET_MUTED
            Sample.MAX Sample.APP_WILL_MOUNT Sample.CONFERENCE_JOINED
            refuses subscribes 1000 finish atRest)
         (VStr "no session") atRest eq_refl).
  - exact
      (proj2
         (proj2
            (middleware_app_will_mount string Sample.sends Sample.inert
               Sample.counter
               Sample.HANG_UP Sample.JOIN_CONFERENCE Sample.SET_MUTED
               Sample.MAX Sample.APP_WILL_MOUNT Sample.CONFERENCE_JOINED
               subscribes subscribes 1000 finish atRest))
         atRest atRest eq_refl eq_refl).
Defined.

Lemma mute_toggle_publishes_once_witness :
  settled string inRoom /\
  published string
    (trace
       (snd
          (hostStep string Sample.sends Sample.inert Sample.counter Sample.MAX
             (MuteToggled string true) inRoom))) =
  [ {| Context.conferenceTimestamp := VUndefined;
       Context.conferenceURL := VStr "https://x/room";
       Context.micMuted := true;
       Context.recentURLs := ["e"; "d"; "c"];
       Context.sessionID := VNum 1 |} ] /\
  published string
    (trace
       (snd
          (hostStep string Sample.sends Sample.inert Sample.counter Sample.MAX
             (MuteToggled string false) inRoom))) = [].
Proof.
  assert (Hs : settled string inRoom) by (repeat split).
  split; [exact Hs |]. split.
  - exact
      (proj1
         (mute_toggle_publishes_once string Sample.sends Sample.inert
            Sample.counter Sample.MAX true inRoom Hs)).
  - exact
      (proj1
         (mute_toggle_publishes_once string Sample.sends Sample.inert
            Sample.counter Sample.MAX false inRoom Hs)).
Defined.

Lemma recent_list_edit_publishes_once_witness :
  settled string inRoom /\
  (* a new array with one more entry *)
  published string
    (trace
       (snd
          (hostStep string Sample.sends Sample.inert Sample.counter Sample.MAX
             (RecentListEdited string
                {| ref := 1%nat; entries := ["a"; "b"; "c"; "d"; "e"; "f"] |})
             inRoom))) =
  [ {| Context.conferenceTimestamp := VUndefined;
       Context.conferenceURL := VStr "https://x/room";
       Context.micMuted := false;
       Context.recentURLs := ["f"; "e"; "d"];
       Context.sessionID := VNum 1 |} ] /\
  (* the same array object, changed in place *)
  published string
    (trace
       (snd
          (hostStep string Sample.sends Sample.inert Sample.counter Sample.MAX
             (RecentListEdited string
                {| ref := 0%nat; entries := ["a"; "b"; "c"; "d"; "e"; "f"] |})
             inRoom))) = [].
Proof.
  assert (Hs : settled string inRoom) by (repeat split).
  split; [exact Hs |]. split.
  - exact
      (proj1
         (recent_list_edit_publishes_once string Sample.sends Sample.inert
            Sample.counter Sample.MAX
            {| ref := 1%nat; entries := ["a"; "b"; "c"; "d"; "e"; "f"] |}
            inRoom Hs)).
  - exact
      (proj1
         (recent_list_edit_publishes_once string Sample.sends Sample.inert
            Sample.counter Sample.MAX
            {| ref := 0%nat; entries := ["a"; "b"; "c"; "d"; "e"; "f"] |}
            inRoom Hs)).
Defined.

Lemma rotation_invalidates_commands_witness :
  accepted string hangUp inRoom /\
  warnings string
    (trace
       (snd
          (onMessage VUndefined hangUp
             (snd
                (hostStep string Sample.sends Sample.inert Sample.counter
                   Sample.MAX
                   (InviteURLChanged string true (Some "https://x/other"))
                   inRoom))))) =
  ["Ignoring outdated watch command: hangup sessionID: 1 current session ID: 2"].
Proof.
  assert (Hacc : accepted string hangUp inRoom) by (split; reflexivity).
  split; [exact Hacc |].
  exact
    (f_equal (fun r => warnings string (trace (snd r)))
       (proj2
          (rotation_invalidates_commands string Sample.sends Sample.inert
             Sample.counter
             Sample.HANG_UP Sample.JOIN_CONFERENCE Sample.SET_MUTED Sample.MAX
             VUndefined hangUp
             (InviteURLChanged string true (Some "https://x/other"))
             inRoom counter_fresh eq_refl eq_refl Hacc eq_refl))).
Defined.

Lemma acceptance_survives_other_changes_witness :
  accepted string hangUp inRoom /\
  accepted string hangUp
    (snd
       (hostStep string Sample.sends Sample.inert Sample.counter Sample.MAX
          (MuteToggled string true) inRoom)).
Proof.
  assert (Hacc : accepted string hangUp inRoom) by (split; reflexivity).
  split; [exact Hacc |].
  exact
    (acceptance_survives_other_changes string Sample.sends Sample.inert
       Sample.counter Sample.MAX hangUp (MuteToggled string true) inRoom
       eq_refl Hacc eq_refl).
Defined.
